(** * Pipeline health monitor: a shallow embedding of pipeline_monitor.py and
    of the manual-recovery endpoint of api.py, with the properties the
    specification states about them.

    Conventions of the embedding.
    - Python [int] is [Z]; Python [float] is Rocq's primitive binary64
      [float]; [str] is [string]; [Optional[T]] is [option T].
    - [datetime] values are clock readings in microseconds ([Z]); every
      [datetime.now()] of the source is an explicit input.
    - [random.random()] draws are explicit [float] inputs.
    - The monitor object is the record [Monitor]; methods are functions in
      the state-and-exception monad [M], which keeps the state reached when
      an exception is raised (Python does not roll back).
    - The audit logger's file is the list [audit_log] of emitted records.
    - Task cancellation ([asyncio.CancelledError], a [BaseException]) is
      outside the model: exceptions are the ones [except Exception]
      catches. *)

From Stdlib Require Import ZArith PrimFloat Uint63.
From stdpp Require Import gmap strings list fin_maps pretty sorting.

Open Scope Z_scope.

(* Decimal literals such as 0.05 denote the nearest binary64 value, as in
   Python. *)
Set Warnings "-inexact-float".

(** ** Enumerations (pipeline_monitor.py, lines 15-38) *)

Inductive PipelineComponent :=
  | NETWORK | VALIDATION_SERVICE | DATABASE | STORAGE | QUEUE.

Inductive HealthStatus := HEALTHY | DEGRADED | DOWN | RECOVERING.

Inductive RecoveryAction :=
  | RECONNECT | RESTART_SERVICE | CLEAR_QUEUE | FAILOVER | MANUAL_INTERVENTION.

#[export] Instance PipelineComponent_eq_dec : EqDecision PipelineComponent.
Proof. solve_decision. Defined.
#[export] Instance HealthStatus_eq_dec : EqDecision HealthStatus.
Proof. solve_decision. Defined.
#[export] Instance RecoveryAction_eq_dec : EqDecision RecoveryAction.
Proof. solve_decision. Defined.

(** [for component in PipelineComponent]: definition order. *)
Definition all_components : list PipelineComponent :=
  [NETWORK; VALIDATION_SERVICE; DATABASE; STORAGE; QUEUE].

Definition component_index (c : PipelineComponent) : nat :=
  match c with
  | NETWORK => 0 | VALIDATION_SERVICE => 1 | DATABASE => 2
  | STORAGE => 3 | QUEUE => 4
  end%nat.

#[export] Instance PipelineComponent_countable : Countable PipelineComponent.
Proof.
  refine (inj_countable component_index (fun n => all_components !! n) _).
  by intros [].
Defined.

(** [c.value] *)
Definition component_value (c : PipelineComponent) : string :=
  match c with
  | NETWORK => "network"
  | VALIDATION_SERVICE => "validation_service"
  | DATABASE => "database"
  | STORAGE => "storage"
  | QUEUE => "queue"
  end.

Definition status_value (s : HealthStatus) : string :=
  match s with
  | HEALTHY => "healthy" | DEGRADED => "degraded"
  | DOWN => "down" | RECOVERING => "recovering"
  end.

Definition action_value (a : RecoveryAction) : string :=
  match a with
  | RECONNECT => "reconnect"
  | RESTART_SERVICE => "restart_service"
  | CLEAR_QUEUE => "clear_queue"
  | FAILOVER => "failover"
  | MANUAL_INTERVENTION => "manual_intervention"
  end.

(** [PipelineComponent(value)]: the member with that value, [None] standing
    for the [ValueError] the enum raises on any other string. *)
Definition component_of_value (value : string) : option PipelineComponent :=
  snd <$> list_find (fun c => component_value c = value) all_components.

(** ** Time and floating point *)

Abbreviation datetime := Z (only parsing).

(** [float(z)], exact for |z| < 2^53 (every clock reading and counter the
    monitor can reach lies far below). *)
Definition float_of_int (z : Z) : float :=
  if z <? 0 then PrimFloat.opp (PrimFloat.of_uint63 (Uint63.of_Z (- z)))
  else PrimFloat.of_uint63 (Uint63.of_Z z).

(** Python's [a / b] on ints, for operands below 2^53 where it is the
    binary64 quotient of the two conversions. *)
Definition truediv (a b : Z) : float :=
  PrimFloat.div (float_of_int a) (float_of_int b).

(** [(t1 - t0).total_seconds() * 1000] *)
Definition elapsed_ms (t0 t1 : datetime) : float :=
  PrimFloat.mul (truediv (t1 - t0) 1000000) (float_of_int 1000).

(** ** Records (pipeline_monitor.py, lines 41-74) *)

Definition metadata_t := option (list (string * Z)).

Module HealthCheck.
Record t := mk {
  component : PipelineComponent;
  status : HealthStatus;
  timestamp : datetime;
  latency_ms : option float;
  error_message : option string;
  metadata : metadata_t
}.
End HealthCheck.

Module RecoveryAttempt.
(** [attempt_id] is the f-string of [component.value] and of the clock
    reading; it is kept as its two interpolated parts. *)
Record t := mk {
  attempt_id : string * datetime;
  component : PipelineComponent;
  action : RecoveryAction;
  timestamp : datetime;
  success : bool;
  duration_ms : float;
  error_message : option string;
  metadata : metadata_t
}.
End RecoveryAttempt.

(** One entry of [PipelineStatus.recent_failures]: the dict with the keys
    "component", "timestamp" (the reading [isoformat()] renders) and
    "error". *)
Record FailureEntry := {
  failure_component : string;
  failure_timestamp : datetime;
  failure_error : option string
}.

Record PipelineStatus := {
  overall_status : HealthStatus;
  components : list (string * string);
  last_check : datetime;
  uptime_percentage : float;
  recent_failures : list FailureEntry;
  suggested_actions : list string;
  is_auto_recoverable : bool
}.

(** ** Exceptions and outcomes *)

(** The exceptions [except Exception] can catch here, by what the handlers
    use of them. [Exception msg] is any exception raised with a message;
    [KeyError] is a dict subscript on a missing key; [HTTPException] is
    FastAPI's, which the endpoints hand to the caller. *)
Inductive exn :=
  | Exception (msg : string)
  | KeyError (key : PipelineComponent)
  | HTTPException (status_code : Z) (detail : string).

Inductive outcome (A : Type) :=
  | Return (a : A)
  | Raise (e : exn).
Arguments Return {A} a.
Arguments Raise {A} e.

Definition component_name (c : PipelineComponent) : string :=
  match c with
  | NETWORK => "NETWORK"
  | VALIDATION_SERVICE => "VALIDATION_SERVICE"
  | DATABASE => "DATABASE"
  | STORAGE => "STORAGE"
  | QUEUE => "QUEUE"
  end.

(** [str(e)]: the message; [repr(key)] for a [KeyError]; status code and
    detail for an [HTTPException] (Starlette's [__str__]). *)
Definition str (e : exn) : string :=
  match e with
  | Exception msg => msg
  | KeyError key =>
      "<PipelineComponent." +:+ component_name key +:+ ": '"
        +:+ component_value key +:+ "'>"
  | HTTPException status_code detail => pretty status_code +:+ ": " +:+ detail
  end.

(** ** The audit trail (class AuditLogger, lines 77-124) *)

Inductive Level := INFO | WARNING | ERROR.

Inductive AuditRecord :=
  | HEALTH_CHECK (check : HealthCheck.t)
  | FAILURE_DETECTED (c : PipelineComponent) (error : string)
  | RECOVERY_ATTEMPT (level : Level) (attempt : RecoveryAttempt.t)
  | ALERT_TRIGGERED (c : PipelineComponent) (severity : string)
  | LOG (level : Level) (message : string).

(** ** The monitor object (class PipelineHealthMonitor, lines 132-157) *)

(** [alert_callback or self._default_alert]: the default handler, or a
    caller's function, which may raise. *)
Inductive AlertCallback :=
  | DefaultAlert
  | CustomAlert (f : PipelineComponent -> HealthStatus -> outcome unit).

Record Monitor := {
  check_interval : Z;
  alert_callback : AlertCallback;
  audit_log : list AuditRecord;
  component_status : gmap PipelineComponent HealthStatus;
  recent_checks : list HealthCheck.t;
  recovery_attempts : list RecoveryAttempt.t;
  total_checks : Z;
  failed_checks : Z;
  successful_recoveries : Z;
  failed_recoveries : Z;
  _monitoring : bool
}.

Definition with_audit_log (f : list AuditRecord -> list AuditRecord) (self : Monitor) :=
  {| check_interval := check_interval self; alert_callback := alert_callback self;
     audit_log := f (audit_log self);
     component_status := component_status self; recent_checks := recent_checks self;
     recovery_attempts := recovery_attempts self; total_checks := total_checks self;
     failed_checks := failed_checks self;
     successful_recoveries := successful_recoveries self;
     failed_recoveries := failed_recoveries self; _monitoring := _monitoring self |}.

Definition with_component_status
    (f : gmap PipelineComponent HealthStatus -> gmap PipelineComponent HealthStatus)
    (self : Monitor) :=
  {| check_interval := check_interval self; alert_callback := alert_callback self;
     audit_log := audit_log self;
     component_status := f (component_status self); recent_checks := recent_checks self;
     recovery_attempts := recovery_attempts self; total_checks := total_checks self;
     failed_checks := failed_checks self;
     successful_recoveries := successful_recoveries self;
     failed_recoveries := failed_recoveries self; _monitoring := _monitoring self |}.

Definition with_recent_checks (f : list HealthCheck.t -> list HealthCheck.t) (self : Monitor) :=
  {| check_interval := check_interval self; alert_callback := alert_callback self;
     audit_log := audit_log self;
     component_status := component_status self; recent_checks := f (recent_checks self);
     recovery_attempts := recovery_attempts self; total_checks := total_checks self;
     failed_checks := failed_checks self;
     successful_recoveries := successful_recoveries self;
     failed_recoveries := failed_recoveries self; _monitoring := _monitoring self |}.

Definition with_recovery_attempts
    (f : list RecoveryAttempt.t -> list RecoveryAttempt.t) (self : Monitor) :=
  {| check_interval := check_interval self; alert_callback := alert_callback self;
     audit_log := audit_log self;
     component_status := component_status self; recent_checks := recent_checks self;
     recovery_attempts := f (recovery_attempts self); total_checks := total_checks self;
     failed_checks := failed_checks self;
     successful_recoveries := successful_recoveries self;
     failed_recoveries := failed_recoveries self; _monitoring := _monitoring self |}.

Definition with_total_checks (f : Z -> Z) (self : Monitor) :=
  {| check_interval := check_interval self; alert_callback := alert_callback self;
     audit_log := audit_log self;
     component_status := component_status self; recent_checks := recent_checks self;
     recovery_attempts := recovery_attempts self; total_checks := f (total_checks self);
     failed_checks := failed_checks self;
     successful_recoveries := successful_recoveries self;
     failed_recoveries := failed_recoveries self; _monitoring := _monitoring self |}.

Definition with_failed_checks (f : Z -> Z) (self : Monitor) :=
  {| check_interval := check_interval self; alert_callback := alert_callback self;
     audit_log := audit_log self;
     component_status := component_status self; recent_checks := recent_checks self;
     recovery_attempts := recovery_attempts self; total_checks := total_checks self;
     failed_checks := f (failed_checks self);
     successful_recoveries := successful_recoveries self;
     failed_recoveries := failed_recoveries self; _monitoring := _monitoring self |}.

Definition with_successful_recoveries (f : Z -> Z) (self : Monitor) :=
  {| check_interval := check_interval self; alert_callback := alert_callback self;
     audit_log := audit_log self;
     component_status := component_status self; recent_checks := recent_checks self;
     recovery_attempts := recovery_attempts self; total_checks := total_checks self;
     failed_checks := failed_checks self;
     successful_recoveries := f (successful_recoveries self);
     failed_recoveries := failed_recoveries self; _monitoring := _monitoring self |}.

Definition with_failed_recoveries (f : Z -> Z) (self : Monitor) :=
  {| check_interval := check_interval self; alert_callback := alert_callback self;
     audit_log := audit_log self;
     component_status := component_status self; recent_checks := recent_checks self;
     recovery_attempts := recovery_attempts self; total_checks := total_checks self;
     failed_checks := failed_checks self;
     successful_recoveries := successful_recoveries self;
     failed_recoveries := f (failed_recoveries self); _monitoring := _monitoring self |}.

Definition with_monitoring (b : bool) (self : Monitor) :=
  {| check_interval := check_interval self; alert_callback := alert_callback self;
     audit_log := audit_log self;
     component_status := component_status self; recent_checks := recent_checks self;
     recovery_attempts := recovery_attempts self; total_checks := total_checks self;
     failed_checks := failed_checks self;
     successful_recoveries := successful_recoveries self;
     failed_recoveries := failed_recoveries self; _monitoring := b |}.

(** [PipelineHealthMonitor.__init__]: empty logs, zero counters, every
    component healthy. *)
Definition init (interval : Z) (callback : AlertCallback) : Monitor :=
  {| check_interval := interval; alert_callback := callback;
     audit_log := [];
     component_status :=
       foldl (fun d component => <[component := HEALTHY]> d) ∅ all_components;
     recent_checks := []; recovery_attempts := [];
     total_checks := 0; failed_checks := 0;
     successful_recoveries := 0; failed_recoveries := 0;
     _monitoring := false |}.

(** ** The state-and-exception monad of the monitor's methods *)

Definition M (A : Type) : Type := Monitor -> outcome A * Monitor.

#[export] Instance M_ret : MRet M := fun A a self => (Return a, self).

#[export] Instance M_bind : MBind M := fun A B f c self =>
  match c self with
  | (Return a, self') => f a self'
  | (Raise e, self') => (Raise e, self')
  end.

Definition raise {A} (e : exn) : M A := fun self => (Raise e, self).

(** [try: body / except Exception as e: handler e] *)
Definition try_except {A} (body : M A) (handler : exn -> M A) : M A :=
  fun self =>
    match body self with
    | (Return a, self') => (Return a, self')
    | (Raise e, self') => handler e self'
    end.

Definition modify (f : Monitor -> Monitor) : M unit :=
  fun self => (Return tt, f self).

Definition read {A} (f : Monitor -> A) : M A :=
  fun self => (Return (f self), self).

(** [for i, x in enumerate(l, start=i): body i x]; the index only selects
    the environment of the iteration. *)
Fixpoint for_each {A} (i : nat) (l : list A) (body : nat -> A -> M unit) : M unit :=
  match l with
  | [] => mret tt
  | x :: rest => body i x;; for_each (S i) rest body
  end.

(** [l[-n:]] for [n > 0]: the last [n] items, all of [l] when it is shorter. *)
Definition slice_last {A} (n : nat) (l : list A) : list A :=
  drop (length l - n) l.

(** [self.component_status[component] = status] *)
Definition set_status (component : PipelineComponent) (status : HealthStatus) : M unit :=
  modify (with_component_status (fun d => <[component := status]> d)).

(** [self.component_status[component]] *)
Definition get_status (component : PipelineComponent) : M HealthStatus :=
  fun self =>
    match component_status self !! component with
    | Some status => (Return status, self)
    | None => (Raise (KeyError component), self)
    end.

(** *** AuditLogger methods *)

Definition log_health_check (check : HealthCheck.t) : M unit :=
  modify (with_audit_log (fun log => log ++ [HEALTH_CHECK check])).

Definition log_failure_detected (component : PipelineComponent) (error : string) : M unit :=
  modify (with_audit_log (fun log => log ++ [FAILURE_DETECTED component error])).

Definition log_recovery_attempt (attempt : RecoveryAttempt.t) : M unit :=
  let level := if RecoveryAttempt.success attempt then INFO else ERROR in
  modify (with_audit_log (fun log => log ++ [RECOVERY_ATTEMPT level attempt])).

Definition log_alert_triggered (component : PipelineComponent) (severity : string) : M unit :=
  modify (with_audit_log (fun log => log ++ [ALERT_TRIGGERED component severity])).

(** ** Probes (lines 159-290) *)

(** What one run of a probe reads from its environment: the
    [random.random()] draw and the three clock readings. *)
Record ProbeEnv := {
  probe_random : float;
  probe_start : datetime;
  probe_end : datetime;
  probe_stamp : datetime
}.

(** The common shape of the five [check_*] methods: the injected fault is
    raised inside the [try] and turned into a [DOWN] result by the
    [except]. *)
Definition probe (component : PipelineComponent) (rate : float) (fault : string)
    (meta : metadata_t) (env : ProbeEnv) : outcome HealthCheck.t :=
  let start := probe_start env in
  let body : outcome HealthCheck.t :=
    if PrimFloat.ltb (probe_random env) rate then Raise (Exception fault)
    else
      let latency := elapsed_ms start (probe_end env) in
      Return (HealthCheck.mk component HEALTHY (probe_stamp env) (Some latency) None meta) in
  match body with
  | Return check => Return check
  | Raise e =>
      Return (HealthCheck.mk component DOWN (probe_stamp env) None (Some (str e)) None)
  end.

Definition check_network : ProbeEnv -> outcome HealthCheck.t :=
  probe NETWORK 0.05%float "Network timeout" None.

Definition check_validation_service : ProbeEnv -> outcome HealthCheck.t :=
  probe VALIDATION_SERVICE 0.03%float "Validation service unresponsive"
    (Some [("active_validations", 5)]).

Definition check_database : ProbeEnv -> outcome HealthCheck.t :=
  probe DATABASE 0.02%float "Database connection lost"
    (Some [("active_connections", 10); ("pool_size", 20)]).

Definition check_storage : ProbeEnv -> outcome HealthCheck.t :=
  probe STORAGE 0.01%float "Storage service unavailable"
    (Some [("disk_usage_percent", 65)]).

Definition check_queue : ProbeEnv -> outcome HealthCheck.t :=
  probe QUEUE 0.04%float "Queue broker connection failed"
    (Some [("pending_messages", 42)]).

(** The five probe coroutines of one cycle, each by what awaiting it gives.
    The tests and the demo replace the methods on the instance, so a
    replaced probe may return any result or raise. *)
Record Probes := {
  run_check_network : outcome HealthCheck.t;
  run_check_validation_service : outcome HealthCheck.t;
  run_check_database : outcome HealthCheck.t;
  run_check_storage : outcome HealthCheck.t;
  run_check_queue : outcome HealthCheck.t
}.

(** The probes of the source itself. *)
Definition source_probes (e1 e2 e3 e4 e5 : ProbeEnv) : Probes :=
  {| run_check_network := check_network e1;
     run_check_validation_service := check_validation_service e2;
     run_check_database := check_database e3;
     run_check_storage := check_storage e4;
     run_check_queue := check_queue e5 |}.

(** [asyncio.gather(..., return_exceptions=True)]: one item per awaitable,
    in argument order, an exception taking the place of a result. *)
Definition gather (p : Probes) : list (outcome HealthCheck.t) :=
  [run_check_network p; run_check_validation_service p; run_check_database p;
   run_check_storage p; run_check_queue p].

(** The loop of [perform_health_checks] over the gathered items. *)
Fixpoint collect_checks (checks : list (outcome HealthCheck.t))
    (results : list HealthCheck.t) : M (list HealthCheck.t) :=
  match checks with
  | [] => mret results
  | Return check :: rest =>
      log_health_check check;; collect_checks rest (results ++ [check])
  | Raise _ :: rest => collect_checks rest results
  end.

(** [perform_health_checks] (lines 292-309) *)
Definition perform_health_checks (p : Probes) : M (list HealthCheck.t) :=
  let checks := gather p in
  collect_checks checks [].

(** ** Recovery (lines 311-410) *)

(** A recovery executor is a method of the monitor that sleeps and then
    returns or raises; it may look at the monitor but does not write to
    it. *)
Definition executor := PipelineComponent -> Monitor -> outcome unit.

Definition await_executor (f : executor) (component : PipelineComponent) : M unit :=
  fun self => (f component self, self).

(** The four executors of the source, by their [random.random()] draw. *)
Definition source_executor (rate : float) (fault : string) (random : float) : executor :=
  fun _ _ =>
    if PrimFloat.ltb random rate then Raise (Exception fault) else Return tt.

Record Executors := {
  _reconnect : executor;
  _restart_service : executor;
  _clear_queue : executor;
  _failover : executor
}.

Definition source_executors (random : float) : Executors :=
  {| _reconnect := source_executor 0.2%float "Reconnection failed" random;
     _restart_service := source_executor 0.15%float "Service restart failed" random;
     _clear_queue := source_executor 0.1%float "Queue clear failed" random;
     _failover := source_executor 0.25%float "Failover failed" random |}.

(** What one call of [attempt_recovery] reads from its environment: the
    executors it may await and the readings of [datetime.now()], numbered
    in program order (0: attempt id, 1: start, 2: duration, 3: timestamp). *)
Record RecoveryEnv := {
  executors : Executors;
  now : nat -> datetime
}.

Definition recovery_map : gmap PipelineComponent RecoveryAction :=
  {[ NETWORK := RECONNECT;
     VALIDATION_SERVICE := RESTART_SERVICE;
     DATABASE := RECONNECT;
     STORAGE := FAILOVER;
     QUEUE := CLEAR_QUEUE ]}.

(** The [if]/[elif] chain of lines 334-343. *)
Definition run_action (ex : Executors) (action : RecoveryAction)
    (component : PipelineComponent) : M unit :=
  match action with
  | RECONNECT => await_executor (_reconnect ex) component
  | RESTART_SERVICE => await_executor (_restart_service ex) component
  | CLEAR_QUEUE => await_executor (_clear_queue ex) component
  | FAILOVER => await_executor (_failover ex) component
  | MANUAL_INTERVENTION => raise (Exception "Manual intervention required")
  end.

(** Lines 330-382 of [attempt_recovery], for the action looked up. *)
Definition recover_with (env : RecoveryEnv) (action : RecoveryAction)
    (component : PipelineComponent) : M RecoveryAttempt.t :=
  let attempt_id := (component_value component, now env 0%nat) in
  let start := now env 1%nat in
  attempt ← try_except
    (set_status component RECOVERING;;
     run_action (executors env) action component;;
     (* await asyncio.sleep(0.5) *)
     let duration := elapsed_ms start (now env 2%nat) in
     let attempt :=
       RecoveryAttempt.mk attempt_id component action (now env 3%nat) true duration
         None (Some [("retries", 1)]) in
     set_status component HEALTHY;;
     modify (with_successful_recoveries (fun n => n + 1));;
     mret attempt)
    (fun e =>
     let duration := elapsed_ms start (now env 2%nat) in
     let attempt :=
       RecoveryAttempt.mk attempt_id component action (now env 3%nat) false duration
         (Some (str e)) None in
     set_status component DOWN;;
     modify (with_failed_recoveries (fun n => n + 1));;
     mret attempt);
  modify (with_recovery_attempts (fun log => log ++ [attempt]));;
  log_recovery_attempt attempt;;
  mret attempt.

(** [attempt_recovery] (lines 311-382) *)
Definition attempt_recovery (env : RecoveryEnv) (component : PipelineComponent)
    : M RecoveryAttempt.t :=
  let action := default MANUAL_INTERVENTION (recovery_map !! component) in
  recover_with env action component.

(** ** The monitor loop (lines 412-461) *)

(** [_default_alert]; the console notice is not modelled. *)
Definition _default_alert (component : PipelineComponent) (status : HealthStatus) : M unit :=
  let severity := if decide (status = DOWN) then "CRITICAL" else "WARNING" in
  log_alert_triggered component severity.

(** [self.alert_callback(component, status)] *)
Definition call_alert_callback (component : PipelineComponent) (status : HealthStatus)
    : M unit :=
  fun self =>
    match alert_callback self with
    | DefaultAlert => _default_alert component status self
    | CustomAlert f => (f component status, self)
    end.

(** [_is_auto_recoverable] (lines 458-461) *)
Definition _is_auto_recoverable (self : Monitor) (component : PipelineComponent) : bool :=
  bool_decide (component ≠ VALIDATION_SERVICE).

(** [x or fallback] on an optional string: [None] and the empty string are
    falsy. *)
Definition or_else (x : option string) (fallback : string) : string :=
  match x with
  | Some (String a s) => String a s
  | _ => fallback
  end.

(** What one cycle reads from its environment: the probes' results and, for
    the check at each position of the collected list, the environment of
    the recovery attempt made for it. *)
Record CycleEnv := {
  probes : Probes;
  recovery : nat -> RecoveryEnv
}.

(** The body of [for check in checks] (lines 432-449). *)
Definition process_check (env : CycleEnv) (i : nat) (check : HealthCheck.t) : M unit :=
  if decide (HealthCheck.status check ≠ HEALTHY) then
    modify (with_failed_checks (fun n => n + 1));;
    log_failure_detected (HealthCheck.component check)
      (or_else (HealthCheck.error_message check) "Unknown error");;
    call_alert_callback (HealthCheck.component check) (HealthCheck.status check);;
    set_status (HealthCheck.component check) (HealthCheck.status check);;
    recoverable ← read (fun self => _is_auto_recoverable self (HealthCheck.component check));
    if recoverable : bool then
      attempt_recovery (recovery env i) (HealthCheck.component check);; mret tt
    else mret tt
  else mret tt.

(** One iteration of [while self._monitoring] (lines 421-456); the two
    sleeps are not modelled. *)
Definition monitor_cycle (env : CycleEnv) : M unit :=
  try_except
    (checks ← perform_health_checks (probes env);
     modify (with_total_checks (fun n => n + Z.of_nat (length checks)));;
     modify (with_recent_checks (fun log => log ++ checks));;
     modify (with_recent_checks (slice_last 100));;
     for_each 0 checks (process_check env))
    (fun e =>
     modify (with_audit_log (fun log =>
       log ++ [LOG ERROR ("Monitor loop error: " +:+ str e)]))).

(** [monitor_loop] over the environments of the cycles that ran: the loop
    stops when [_monitoring] is found false. *)
Fixpoint monitor_loop (envs : list CycleEnv) : M unit :=
  match envs with
  | [] => mret tt
  | env :: rest =>
      monitoring ← read _monitoring;
      if monitoring : bool then monitor_cycle env;; monitor_loop rest else mret tt
  end.

(** [start_monitoring] and [stop_monitoring] (lines 463-475), without the
    task handle. *)
Definition start_monitoring : M unit :=
  monitoring ← read _monitoring;
  if negb monitoring then
    modify (with_monitoring true);;
    modify (with_audit_log (fun log => log ++ [LOG INFO "Pipeline monitoring started"]))
  else mret tt.

Definition stop_monitoring : M unit :=
  modify (with_monitoring false);;
  modify (with_audit_log (fun log => log ++ [LOG INFO "Pipeline monitoring stopped"])).

(** ** Status queries (lines 477-560) *)

(** [d.items()]. The keys are inserted by [__init__] in definition order
    and only ever reassigned, so a dict's order is that of the enum. *)
Definition items (d : gmap PipelineComponent HealthStatus)
    : list (PipelineComponent * HealthStatus) :=
  omap (fun c => (fun s => (c, s)) <$> d !! c) all_components.

(** [d.values()] *)
Definition values (d : gmap PipelineComponent HealthStatus) : list HealthStatus :=
  snd <$> items d.

(** [any(s == status for s in statuses)] *)
Definition any_is (status : HealthStatus) (statuses : list HealthStatus) : bool :=
  existsb (fun s => bool_decide (s = status)) statuses.

Definition down_advice (component : PipelineComponent) : string :=
  match component with
  | NETWORK =>
      "⚠️ Network is down. Check internet connectivity and firewall rules."
  | VALIDATION_SERVICE =>
      "⚠️ Validation service crashed. Contact engineering to restart service."
  | DATABASE =>
      "⚠️ Database connection lost. Check DB server status and credentials."
  | STORAGE =>
      "⚠️ Storage unavailable. Verify storage service and check disk space."
  | QUEUE =>
      "⚠️ Message queue down. Check queue broker and clear stuck messages."
  end.

(** [_generate_suggested_actions] (lines 530-560) *)
Definition _generate_suggested_actions (self : Monitor) : list string :=
  let actions :=
    omap (fun '(component, status) =>
            if decide (status = DOWN) then Some (down_advice component) else None)
         (items (component_status self)) in
  match actions with
  | [] => ["✅ All systems operational. No action needed."]
  | _ => actions
  end.

(** [get_pipeline_status] (lines 477-528); [now] is the reading for
    [last_check]. *)
Definition get_pipeline_status (now : datetime) (self : Monitor) : PipelineStatus :=
  let statuses := values (component_status self) in
  let overall :=
    if any_is DOWN statuses then DOWN
    else if any_is DEGRADED statuses then DEGRADED
    else if any_is RECOVERING statuses then RECOVERING
    else HEALTHY in
  let uptime :=
    if total_checks self >? 0 then
      PrimFloat.mul (truediv (total_checks self - failed_checks self) (total_checks self))
        (float_of_int 100)
    else 100%float in
  let recent_failures :=
    omap (fun check =>
            if decide (HealthCheck.status check ≠ HEALTHY) then
              Some {| failure_component := component_value (HealthCheck.component check);
                      failure_timestamp := HealthCheck.timestamp check;
                      failure_error := HealthCheck.error_message check |}
            else None)
         (slice_last 10 (recent_checks self)) in
  let suggested_actions := _generate_suggested_actions self in
  let is_auto_recoverable :=
    forallb (fun '(comp, status) => _is_auto_recoverable self comp)
      (filter (fun '(comp, status) => status ≠ HEALTHY) (items (component_status self))) in
  {| overall_status := overall;
     components :=
       (fun '(comp, status) => (component_value comp, status_value status))
         <$> items (component_status self);
     last_check := now;
     uptime_percentage := uptime;
     recent_failures := recent_failures;
     suggested_actions := suggested_actions;
     is_auto_recoverable := is_auto_recoverable |}.

(** ** The manual-recovery endpoint (api.py, lines 116-160) *)

(** The two JSON bodies [trigger_recovery] returns; [duration_ms] is the
    attempt's duration, which the endpoint rounds to two places. *)
Inductive RecoveryResponse :=
  | AlreadyHealthy (status message component : string) (timestamp : datetime)
  | AttemptReport (status : string) (attempt_id : string * datetime)
      (component action : string) (duration_ms : float) (error : option string)
      (timestamp : datetime).

Definition invalid_component_detail : string :=
  "Invalid component. Must be one of: ['network', 'validation_service', 'database', 'storage', 'queue']".

(** The body returned after an attempt (lines 149-157). *)
Definition attempt_report (component : string) (attempt : RecoveryAttempt.t)
    : RecoveryResponse :=
  AttemptReport
    (if RecoveryAttempt.success attempt then "success" else "failed")
    (RecoveryAttempt.attempt_id attempt)
    component
    (action_value (RecoveryAttempt.action attempt))
    (RecoveryAttempt.duration_ms attempt)
    (RecoveryAttempt.error_message attempt)
    (RecoveryAttempt.timestamp attempt).

(** The body returned for a healthy component (lines 139-144). *)
Definition already_healthy (component : string) (stamp : datetime) : RecoveryResponse :=
  AlreadyHealthy "success" (component +:+ " is already healthy") component stamp.

(** [trigger_recovery(component)] for the module's [monitor]; [stamp] is
    the reading for the already-healthy body. The [HTTPException] with
    status 400 is raised inside the outer [try], whose [except Exception]
    catches it like any other exception. *)
Definition trigger_recovery (env : RecoveryEnv) (stamp : datetime) (component : string)
    : M RecoveryResponse :=
  try_except
    (comp ← match component_of_value component with
            | Some comp => mret comp
            | None => raise (HTTPException 400 invalid_component_detail)
            end;
     status ← get_status comp;
     if decide (status = HEALTHY) then mret (already_healthy component stamp)
     else
       attempt ← attempt_recovery env comp;
       mret (attempt_report component attempt))
    (fun e => raise (HTTPException 500 (str e))).

(** ** Interleaving at the await points

    asyncio runs one coroutine at a time and switches only at an [await].
    [attempt_recovery] awaits twice, the executor and the half-second
    verification sleep; the endpoint awaits nothing else. A call is cut
    here into the pieces between those awaits, and a system is the monitor
    with the calls now suspended. *)

(** The locals of a suspended [attempt_recovery] call. *)
Record Pending := {
  pending_id : string * datetime;
  pending_component : PipelineComponent;
  pending_action : RecoveryAction;
  pending_start : datetime;
  pending_request : string
}.

Inductive Suspended :=
  | InExecutor (p : Pending)
  | InVerification (p : Pending).

Definition suspended_component (t : Suspended) : PipelineComponent :=
  match t with InExecutor p | InVerification p => pending_component p end.

(** Lines 363-382: the [except] branch and the bookkeeping after it. *)
Definition fail_attempt (p : Pending) (now : nat -> datetime) (e : exn)
    : M RecoveryAttempt.t :=
  let duration := elapsed_ms (pending_start p) (now 2%nat) in
  let attempt :=
    RecoveryAttempt.mk (pending_id p) (pending_component p) (pending_action p)
      (now 3%nat) false duration (Some (str e)) None in
  set_status (pending_component p) DOWN;;
  modify (with_failed_recoveries (fun n => n + 1));;
  modify (with_recovery_attempts (fun log => log ++ [attempt]));;
  log_recovery_attempt attempt;;
  mret attempt.

(** Lines 348-361 and 379-382: after the verification sleep. *)
Definition complete_attempt (p : Pending) (now : nat -> datetime) : M RecoveryAttempt.t :=
  let duration := elapsed_ms (pending_start p) (now 2%nat) in
  let attempt :=
    RecoveryAttempt.mk (pending_id p) (pending_component p) (pending_action p)
      (now 3%nat) true duration None (Some [("retries", 1)]) in
  set_status (pending_component p) HEALTHY;;
  modify (with_successful_recoveries (fun n => n + 1));;
  modify (with_recovery_attempts (fun log => log ++ [attempt]));;
  log_recovery_attempt attempt;;
  mret attempt.

(** Lines 316-343: [attempt_recovery] up to its first await. The call
    either suspends in an executor or, for the manual-intervention action,
    raises at once and finishes in the [except] branch. *)
Definition begin_attempt (now : nat -> datetime) (request : string)
    (component : PipelineComponent) : M (RecoveryAttempt.t + Pending) :=
  let p :=
    {| pending_id := (component_value component, now 0%nat);
       pending_component := component;
       pending_action := default MANUAL_INTERVENTION (recovery_map !! component);
       pending_start := now 1%nat;
       pending_request := request |} in
  set_status component RECOVERING;;
  match pending_action p with
  | MANUAL_INTERVENTION =>
      attempt ← fail_attempt p now (Exception "Manual intervention required");
      mret (inl attempt)
  | _ => mret (inr p)
  end.

Record System := {
  monitor : Monitor;
  in_flight : list Suspended;
  responses : list (outcome RecoveryResponse)
}.

Inductive Event :=
  | ManualRequest (now : nat -> datetime) (stamp : datetime) (component : string)
  | ExecutorDone (i : nat) (now : nat -> datetime) (result : outcome unit)
  | VerificationDone (i : nat) (now : nat -> datetime).

Definition respond (r : outcome RecoveryResponse) (self : Monitor) (sys : System) : System :=
  {| monitor := self; in_flight := in_flight sys; responses := responses sys ++ [r] |}.

(** A request handler from its entry to its first await or to its return. *)
Definition trigger_recovery_begin (now : nat -> datetime) (stamp : datetime)
    (component : string) (sys : System) : System :=
  match component_of_value component with
  | None =>
      respond (Raise (HTTPException 500
                        (str (HTTPException 400 invalid_component_detail))))
        (monitor sys) sys
  | Some comp =>
      match get_status comp (monitor sys) with
      | (Raise e, self) => respond (Raise (HTTPException 500 (str e))) self sys
      | (Return status, self) =>
          if decide (status = HEALTHY) then
            respond (Return (already_healthy component stamp)) self sys
          else
            match begin_attempt now component comp self with
            | (Return (inl attempt), self') =>
                respond (Return (attempt_report component attempt)) self' sys
            | (Return (inr p), self') =>
                {| monitor := self';
                   in_flight := in_flight sys ++ [InExecutor p];
                   responses := responses sys |}
            | (Raise e, self') =>
                respond (Raise (HTTPException 500 (str e))) self' sys
            end
      end
  end.

(** The scheduler resumes the [i]-th suspended call. *)
Definition resume (i : nat) (now : nat -> datetime) (result : outcome unit)
    (sys : System) : System :=
  match in_flight sys !! i with
  | Some (InExecutor p) =>
      match result with
      | Return _ =>
          {| monitor := monitor sys;
             in_flight := <[i := InVerification p]> (in_flight sys);
             responses := responses sys |}
      | Raise e =>
          match fail_attempt p now e (monitor sys) with
          | (Return attempt, self') =>
              {| monitor := self';
                 in_flight := delete i (in_flight sys);
                 responses :=
                   responses sys ++ [Return (attempt_report (pending_request p) attempt)] |}
          | (Raise e', self') =>
              {| monitor := self';
                 in_flight := delete i (in_flight sys);
                 responses := responses sys ++ [Raise (HTTPException 500 (str e'))] |}
          end
      end
  | Some (InVerification p) =>
      match complete_attempt p now (monitor sys) with
      | (Return attempt, self') =>
          {| monitor := self';
             in_flight := delete i (in_flight sys);
             responses :=
               responses sys ++ [Return (attempt_report (pending_request p) attempt)] |}
      | (Raise e', self') =>
          {| monitor := self';
             in_flight := delete i (in_flight sys);
             responses := responses sys ++ [Raise (HTTPException 500 (str e'))] |}
      end
  | None => sys
  end.

Definition step (sys : System) (ev : Event) : System :=
  match ev with
  | ManualRequest now stamp component => trigger_recovery_begin now stamp component sys
  | ExecutorDone i now result =>
      match in_flight sys !! i with
      | Some (InExecutor _) => resume i now result sys
      | _ => sys
      end
  | VerificationDone i now =>
      match in_flight sys !! i with
      | Some (InVerification _) => resume i now (Return tt) sys
      | _ => sys
      end
  end.

Definition run (events : list Event) (sys : System) : System :=
  foldl step sys events.

(** The attempts in flight for one component. *)
Definition in_flight_for (component : PipelineComponent) (sys : System) : list Suspended :=
  filter (fun t => suspended_component t = component) (in_flight sys).

(** * Vocabulary of the statements and sample runs *)

(** A monitor as the tests build it: a fresh one with some statuses
    assigned. *)
Definition with_statuses (f : PipelineComponent -> HealthStatus) (self : Monitor) : Monitor :=
  with_component_status
    (fun d => foldl (fun d c => <[c := f c]> d) d all_components) self.

(** The assignment with one component down and the others healthy. *)
Definition one_down (component c : PipelineComponent) : HealthStatus :=
  if decide (c = component) then DOWN else HEALTHY.


(** The wording of the specification: the last [n] entries of a log, and a
    check reduced to its component, timestamp and error. *)
Definition last_entries {A} (n : nat) (log : list A) : list A :=
  reverse (take n (reverse log)).

Definition reduced (check : HealthCheck.t) : FailureEntry :=
  {| failure_component := component_value (HealthCheck.component check);
     failure_timestamp := HealthCheck.timestamp check;
     failure_error := HealthCheck.error_message check |}.


(** A check as a probe of the source builds it, without latency. *)
Definition sample_check (component : PipelineComponent) (status : HealthStatus)
    (stamp : datetime) : HealthCheck.t :=
  HealthCheck.mk component status stamp None
    (if decide (status = HEALTHY) then None else Some "Network timeout") None.

(** The results among the gathered items. *)
Definition returned (checks : list (outcome HealthCheck.t)) : list HealthCheck.t :=
  omap (fun r => match r with Return check => Some check | Raise _ => None end) checks.

(** The monitor at the moment the executor is awaited. *)
Definition recovering (component : PipelineComponent) (self : Monitor) : Monitor :=
  with_component_status (fun d => <[component := RECOVERING]> d) self.

(** What a finished attempt leaves behind, for the status [final] and the
    counter increments [ok] and [ko]. *)
Definition settled (self self' : Monitor) (component : PipelineComponent)
    (final : HealthStatus) (ok ko : Z) (attempt : RecoveryAttempt.t) : Prop :=
  component_status self' = <[component := final]> (component_status self)
  ∧ successful_recoveries self' = successful_recoveries self + ok
  ∧ failed_recoveries self' = failed_recoveries self + ko
  ∧ recovery_attempts self' = recovery_attempts self ++ [attempt]
  ∧ audit_log self'
    = audit_log self
      ++ [RECOVERY_ATTEMPT (if RecoveryAttempt.success attempt then INFO else ERROR) attempt]
  ∧ recent_checks self' = recent_checks self
  ∧ total_checks self' = total_checks self
  ∧ failed_checks self' = failed_checks self
  ∧ alert_callback self' = alert_callback self
  ∧ _monitoring self' = _monitoring self.

(** Whatever the outcome, the state reached is related to the state
    started from. *)
Definition preserves (R : relation Monitor) {A} (m : M A) : Prop :=
  ∀ self, R self (m self).2.

(** What the loop's processing of results can do to the status map and the
    recovery log: the log grows by attempts for auto-recoverable
    components, and a component is healthy afterwards only if it was
    before or one of the new attempts for it succeeded. *)
Definition loop_step (self self' : Monitor) : Prop :=
  alert_callback self' = alert_callback self
  ∧ _monitoring self' = _monitoring self
  ∧ ∃ new,
      recovery_attempts self' = recovery_attempts self ++ new
      ∧ (∀ a, a ∈ new → RecoveryAttempt.component a ≠ VALIDATION_SERVICE)
      ∧ (∀ c, component_status self' !! c = Some HEALTHY →
              component_status self !! c = Some HEALTHY
              ∨ ∃ a, a ∈ new ∧ RecoveryAttempt.component a = c
                     ∧ RecoveryAttempt.success a = true).

(** The monitor when the [for] loop of a cycle starts. *)
Definition before_processing (env : CycleEnv) (self : Monitor) : Monitor :=
  let checks := returned (gather (probes env)) in
  with_recent_checks (slice_last 100)
    (with_recent_checks (fun log => log ++ checks)
       (with_total_checks (fun n => n + Z.of_nat (length checks))
          (with_audit_log (fun log => log ++ (HEALTH_CHECK <$> checks)) self))).

(** A step that leaves the recent-checks log alone. *)
Definition same_recent_checks (self self' : Monitor) : Prop :=
  recent_checks self' = recent_checks self.

(** Every result the probes returned over a run, oldest first. *)
Definition all_results (envs : list CycleEnv) : list HealthCheck.t :=
  envs ≫= fun env => returned (gather (probes env)).

(** A monitor started as the API starts it. *)
Definition started : Monitor := (start_monitoring (init 30 DefaultAlert)).2.

(** Probe environments: a draw above every fault rate, and one below. *)
Definition quiet : ProbeEnv :=
  {| probe_random := 0.5%float; probe_start := 0; probe_end := 50000;
     probe_stamp := 50001 |}.

Definition faulty : ProbeEnv :=
  {| probe_random := 0%float; probe_start := 0; probe_end := 50000;
     probe_stamp := 50001 |}.

(** Recovery environments: the source's executors with a draw above every
    failure rate, and with one below. *)
Definition lucky : RecoveryEnv :=
  {| executors := source_executors 0.9%float;
     now := fun k => 60000 + 800000 * Z.of_nat k |}.

Definition unlucky : RecoveryEnv :=
  {| executors := source_executors 0.05%float;
     now := fun k => 60000 + 800000 * Z.of_nat k |}.

(** A cycle in which the network probe faults, the other probes succeed and
    the reconnection succeeds. *)
Definition network_fault : CycleEnv :=
  {| probes := source_probes faulty quiet quiet quiet quiet;
     recovery := fun _ => lucky |}.

(** A cycle in which the validation service's probe faults, and one in
    which no probe does. *)
Definition validation_fault : CycleEnv :=
  {| probes := source_probes quiet faulty quiet quiet quiet;
     recovery := fun _ => lucky |}.

Definition all_quiet : CycleEnv :=
  {| probes := source_probes quiet quiet quiet quiet quiet;
     recovery := fun _ => lucky |}.

(** A monitor whose validation service is down: the probe faulted and the
    loop attempts no recovery for it. *)
Definition validation_down : Monitor := (monitor_cycle validation_fault started).2.

(** A system with no call suspended and no response sent yet. *)
Definition idle (self : Monitor) : System :=
  {| monitor := self; in_flight := []; responses := [] |}.

(** A monitor whose network is down: the probe faulted and the
    reconnection attempted by the loop failed. *)
Definition network_fault_unrecovered : CycleEnv :=
  {| probes := source_probes faulty quiet quiet quiet quiet;
     recovery := fun _ => unlucky |}.

Definition network_down : Monitor := (monitor_cycle network_fault_unrecovered started).2.

(** Two manual requests for the network, one after the other, while it is
    down and nothing has resumed in between. *)
Definition first_request : System :=
  step (idle network_down) (ManualRequest (now lucky) 7 "network").

Definition second_request : System :=
  step first_request (ManualRequest (fun k => now lucky k + 100) 8 "network").

(** * The remaining operations *)

(** ** Serial runs of the monitor's public operations *)

(** One entry of the body of the force-check endpoint. *)
Record CheckSummary := {
  summary_component : string;
  summary_status : string;
  summary_latency_ms : option float;
  summary_error : option string
}.

Definition summarize (check : HealthCheck.t) : CheckSummary :=
  {| summary_component := component_value (HealthCheck.component check);
     summary_status := status_value (HealthCheck.status check);
     summary_latency_ms := HealthCheck.latency_ms check;
     summary_error := HealthCheck.error_message check |}.

(** [force_health_check] (api.py, lines 258-283): the status "completed",
    the summaries and the time stamp. *)
Definition force_health_check (p : Probes) (stamp : datetime)
    : M (string * list CheckSummary * datetime) :=
  try_except
    (checks ← perform_health_checks p;
     mret ("completed", summarize <$> checks, stamp))
    (fun e => raise (HTTPException 500 (str e))).

(** An operation run from its call to its return: a cycle of the loop, a
    manual recovery request, a forced check. *)
Inductive Op :=
  | Cycle (env : CycleEnv)
  | ManualRecovery (env : RecoveryEnv) (stamp : datetime) (component : string)
  | ForceCheck (p : Probes) (stamp : datetime).

Definition apply_op (self : Monitor) (op : Op) : Monitor :=
  match op with
  | Cycle env => (monitor_cycle env self).2
  | ManualRecovery env stamp component => (trigger_recovery env stamp component self).2
  | ForceCheck p stamp => (force_health_check p stamp self).2
  end.

Definition run_ops (ops : list Op) (self : Monitor) : Monitor :=
  foldl apply_op self ops.

(** The results an operation processes into statuses and counters: those
    of a cycle. *)
Definition op_results (op : Op) : list HealthCheck.t :=
  match op with
  | Cycle env => returned (gather (probes env))
  | ManualRecovery _ _ _ => []
  | ForceCheck _ _ => []
  end.

(** An invariant read as a relation between the states before and after. *)
Definition keeps (I : Monitor -> Prop) : relation Monitor :=
  fun self self' => I self → I self'.

(** Every component has a status. *)
Definition tracked (self : Monitor) : Prop :=
  ∀ c, is_Some (component_status self !! c).

(** The two recovery counters count the records of the recovery log. *)
Definition counted_attempts (self : Monitor) : Prop :=
  successful_recoveries self
  = Z.of_nat (length (filter (fun a => RecoveryAttempt.success a = true)
                        (recovery_attempts self)))
  ∧ failed_recoveries self
    = Z.of_nat (length (filter (fun a => RecoveryAttempt.success a = false)
                          (recovery_attempts self))).

(** The attempt an audit record reports, if it reports one. *)
Definition logged_attempt (r : AuditRecord) : option RecoveryAttempt.t :=
  match r with RECOVERY_ATTEMPT _ attempt => Some attempt | _ => None end.

(** The level an audit record must have: that of its attempt's outcome. *)
Definition well_leveled (r : AuditRecord) : Prop :=
  match r with
  | RECOVERY_ATTEMPT level attempt =>
      level = if RecoveryAttempt.success attempt then INFO else ERROR
  | _ => True
  end.

(** The audit trail reports the attempts of the recovery log, in order. *)
Definition audited (self : Monitor) : Prop :=
  omap logged_attempt (audit_log self) = recovery_attempts self
  ∧ Forall well_leveled (audit_log self).

(** The statuses the probes of the source report. *)
Definition healthy_or_down (status : HealthStatus) : Prop :=
  status = HEALTHY ∨ status = DOWN.

(** Between operations no component is recovering or degraded. *)
Definition at_rest (self : Monitor) : Prop :=
  ∀ c status, component_status self !! c = Some status → healthy_or_down status.

(** ** Python slices *)

(** [l[start:]] for any int [start]: a negative index counts from the end
    and is clamped at the front. *)
Definition slice_from {A} (start : Z) (l : list A) : list A :=
  if start <? 0 then drop (Z.to_nat (Z.max 0 (Z.of_nat (length l) + start))) l
  else drop (Z.to_nat start) l.

(** [l[:stop]] for any int [stop]. *)
Definition slice_to {A} (stop : Z) (l : list A) : list A :=
  if stop <? 0 then take (Z.to_nat (Z.max 0 (Z.of_nat (length l) + stop))) l
  else take (Z.to_nat stop) l.

(** ** Messages, metrics and history *)

(** The newline character. *)
Definition nl : string := String (Ascii.ascii_of_nat 10) EmptyString.


(** The events of the history endpoint: the two dicts, told apart by their
    "type" key; [timestamp] is the [isoformat()] string. *)
Inductive HistoryEvent :=
  | CheckEvent (component status timestamp : string) (latency_ms : option float)
      (error : option string)
  | RecoveryEvent (attempt_id : string * datetime) (component action : string)
      (success : bool) (timestamp : string) (duration_ms : float)
      (error : option string).

Definition event_timestamp (ev : HistoryEvent) : string :=
  match ev with
  | CheckEvent _ _ timestamp _ _ => timestamp
  | RecoveryEvent _ _ _ _ timestamp _ _ => timestamp
  end.

(** [events.sort(key=lambda x: x["timestamp"], reverse=True)]: Python's
    sort is stable also when reversed, so an event goes in front of the
    first one whose timestamp is not greater than its own. *)
Fixpoint insert_event (ev : HistoryEvent) (sorted : list HistoryEvent) : list HistoryEvent :=
  match sorted with
  | [] => [ev]
  | first :: rest =>
      if String.ltb (event_timestamp ev) (event_timestamp first)
      then first :: insert_event ev rest
      else ev :: sorted
  end.

Definition sort_events (events : list HistoryEvent) : list HistoryEvent :=
  foldr insert_event [] events.


Section Rendering.
(** Python's renderings, which the source only calls: ["{:.2f}".format],
    [strftime("%Y-%m-%d %H:%M:%S")], [round(x, 2)] and [isoformat()]. *)
Variable format_2f : float -> string.
Variable strftime : datetime -> string.
Variable round2 : float -> float.
Variable isoformat : datetime -> string.

(** [f"{x}"] for an optional string. *)
Definition format_optional (x : option string) : string :=
  match x with Some s => s | None => "None" end.

(** [get_editor_message] (pipeline_monitor.py, lines 562-617). Each
    template is written as its lines; [.strip()] takes off the newline that
    opens the template and the blanks that close it, every template
    starting with its emoji and ending with fixed text or the rendered
    time. *)
Definition get_editor_message (now : datetime) (self : Monitor) : string :=
  let status := get_pipeline_status now self in
  if decide (overall_status status = HEALTHY) then
    String.concat nl
      ["✅ **Publishing Pipeline: OPERATIONAL**";
       EmptyString;
       "All systems are running normally. You can publish articles without issues.";
       EmptyString;
       "Uptime: " +:+ format_2f (uptime_percentage status) +:+ "%";
       "Last Check: " +:+ strftime (last_check status)]
  else if decide (overall_status status = RECOVERING) then
    String.concat nl
      ["🔄 **Publishing Pipeline: RECOVERING**";
       EmptyString;
       "The system detected issues and is attempting automatic recovery.";
       "Please wait 1-2 minutes before trying to publish.";
       EmptyString;
       String.concat nl (suggested_actions status);
       EmptyString;
       "If the issue persists, contact engineering."]
  else
    let recovery_status :=
      if is_auto_recoverable status then "Automatic recovery in progress."
      else "Manual intervention required - contact engineering immediately." in
    String.concat nl
      ["🚨 **Publishing Pipeline: DOWN**";
       EmptyString;
       "The publishing system is currently unavailable.";
       EmptyString;
       "**Issues Detected:**";
       String.concat nl
         ((fun '(comp, stat) => "- " +:+ comp +:+ ": " +:+ stat)
            <$> filter (fun '(comp, stat) => stat ≠ "healthy") (components status));
       EmptyString;
       "**Next Steps:**";
       recovery_status;
       EmptyString;
       "**Recent Failures:**";
       String.concat nl
         ((fun f => "- " +:+ failure_component f +:+ ": "
                    +:+ format_optional (failure_error f))
            <$> slice_from (-3) (recent_failures status));
       EmptyString;
       "For immediate assistance, contact the engineering team with this error report."].

(** The editor-message endpoint (api.py, lines 94-113): message, status,
    [can_publish] and time stamp. *)
Definition get_editor_message_endpoint (now1 now2 stamp : datetime)
    : M (string * string * bool * datetime) :=
  try_except
    (message ← read (get_editor_message now1);
     status ← read (get_pipeline_status now2);
     mret (message, status_value (overall_status status),
           bool_decide (overall_status status = HEALTHY), stamp))
    (fun e => raise (HTTPException 500 (str e))).


Definition check_event (check : HealthCheck.t) : HistoryEvent :=
  CheckEvent (component_value (HealthCheck.component check))
    (status_value (HealthCheck.status check))
    (isoformat (HealthCheck.timestamp check))
    (HealthCheck.latency_ms check) (HealthCheck.error_message check).

Definition recovery_event (attempt : RecoveryAttempt.t) : HistoryEvent :=
  RecoveryEvent (RecoveryAttempt.attempt_id attempt)
    (component_value (RecoveryAttempt.component attempt))
    (action_value (RecoveryAttempt.action attempt))
    (RecoveryAttempt.success attempt)
    (isoformat (RecoveryAttempt.timestamp attempt))
    (RecoveryAttempt.duration_ms attempt) (RecoveryAttempt.error_message attempt).

(** [get_history(limit)] (api.py, lines 207-255): the events, their number
    before the cut, and the time stamp. *)
Definition get_history (limit : Z) (stamp : datetime)
    : M (list HistoryEvent * nat * datetime) :=
  try_except
    (checks ← read recent_checks;
     attempts ← read recovery_attempts;
     let recent_checks := check_event <$> slice_from (- limit) checks in
     let recent_recoveries := recovery_event <$> slice_from (- limit) attempts in
     let all_events := sort_events (recent_checks ++ recent_recoveries) in
     mret (slice_to limit all_events, length all_events, stamp))
    (fun e => raise (HTTPException 500 (str e))).

(** The list [all_events] of [get_history] once sorted. *)
Definition history_events (limit : Z) (self : Monitor) : list HistoryEvent :=
  sort_events
    ((check_event <$> slice_from (- limit) (recent_checks self))
     ++ (recovery_event <$> slice_from (- limit) (recovery_attempts self))).

End Rendering.

(** ** Tables read off the source, for the statements *)

(** The probe of each component, its fault rate and its fault message
    (lines 159-290). *)
Definition source_probe (c : PipelineComponent) : ProbeEnv -> outcome HealthCheck.t :=
  match c with
  | NETWORK => check_network
  | VALIDATION_SERVICE => check_validation_service
  | DATABASE => check_database
  | STORAGE => check_storage
  | QUEUE => check_queue
  end.

Definition fault_rate (c : PipelineComponent) : float :=
  match c with
  | NETWORK => 0.05 | VALIDATION_SERVICE => 0.03 | DATABASE => 0.02
  | STORAGE => 0.01 | QUEUE => 0.04
  end%float.

Definition fault_message (c : PipelineComponent) : string :=
  match c with
  | NETWORK => "Network timeout"
  | VALIDATION_SERVICE => "Validation service unresponsive"
  | DATABASE => "Database connection lost"
  | STORAGE => "Storage service unavailable"
  | QUEUE => "Queue broker connection failed"
  end.


(** The counters of checks are left as they were. *)
Definition same_check_counters (self self' : Monitor) : Prop :=
  total_checks self' = total_checks self ∧ failed_checks self' = failed_checks self.

(** The counters of checks only grow, and the checks that did not fail are
    never fewer. *)
Definition check_counters_grow (self self' : Monitor) : Prop :=
  total_checks self ≤ total_checks self'
  ∧ failed_checks self ≤ failed_checks self'
  ∧ total_checks self - failed_checks self ≤ total_checks self' - failed_checks self'.

(** The results that are not healthy, and among them those of components
    the loop tries to recover. *)
Definition failing (checks : list HealthCheck.t) : list HealthCheck.t :=
  filter (fun check => HealthCheck.status check ≠ HEALTHY) checks.

Definition recoverable (checks : list HealthCheck.t) : list HealthCheck.t :=
  filter (fun check => HealthCheck.component check ≠ VALIDATION_SERVICE) (failing checks).

(** The order of the history: an event stands before another when its time
    stamp, as a string, is not smaller. *)
Definition newest_first (a b : HistoryEvent) : Prop :=
  String.leb (event_timestamp b) (event_timestamp a) = true.

(** The manual requests among the events of a run. *)
Definition is_request (ev : Event) : bool :=
  match ev with ManualRequest _ _ _ => true | _ => false end.

Definition requests (events : list Event) : list Event :=
  filter (fun ev => is_request ev = true) events.

(** After the two requests, the first attempt has gone through its executor
    and its verification; the second is still in its executor. *)
Definition first_succeeded : System :=
  run [ExecutorDone 0 (now lucky) (Return tt); VerificationDone 0 (now lucky)]
    second_request.

(** * Properties *)

(** ** Status aggregation *)

Lemma all_components_complete (c : PipelineComponent) : c ∈ all_components.
Proof. destruct c; unfold all_components; set_solver. Qed.

Lemma values_total (d : gmap PipelineComponent HealthStatus)
    (f : PipelineComponent -> HealthStatus) :
  (∀ c, d !! c = Some (f c)) → values d = f <$> all_components.
Proof.
  intros Hd. unfold values, items, all_components. cbn.
  by rewrite !Hd.
Qed.

Lemma any_is_true (status : HealthStatus) (statuses : list HealthStatus) :
  any_is status statuses = true ↔ status ∈ statuses.
Proof.
  unfold any_is. rewrite existsb_exists. split.
  - intros (s & Hin & Heq). apply bool_decide_eq_true in Heq. subst s.
    by apply list_elem_of_In.
  - intros Hin. exists status. split; [by apply list_elem_of_In|].
    by apply bool_decide_eq_true.
Qed.

Lemma any_is_assignment (status : HealthStatus) (f : PipelineComponent -> HealthStatus) :
  any_is status (f <$> all_components) = true ↔ ∃ c, f c = status.
Proof.
  rewrite any_is_true, list_elem_of_fmap. split.
  - intros (c & -> & _). by exists c.
  - intros (c & <-). exists c. split; [done | apply all_components_complete].
Qed.

Lemma any_is_assignment_false (status : HealthStatus)
    (f : PipelineComponent -> HealthStatus) :
  any_is status (f <$> all_components) = false ↔ ∀ c, f c ≠ status.
Proof.
  rewrite <- not_true_iff_false, any_is_assignment. split.
  - intros Hn c Hc. apply Hn. by exists c.
  - intros Hall (c & Hc). by apply (Hall c).
Qed.

(** C3. For every assignment [f] of statuses to the five components, the
    overall status reported by [get_pipeline_status] is [DOWN] if some
    component is down, else [DEGRADED] if some component is degraded, else
    [RECOVERING] if some component is recovering, else [HEALTHY]. *)
Theorem overall_status_precedence (now : datetime) (self : Monitor)
    (f : PipelineComponent -> HealthStatus) :
  (∀ c, component_status self !! c = Some (f c)) →
  ((∃ c, f c = DOWN) → overall_status (get_pipeline_status now self) = DOWN)
  ∧ ((∀ c, f c ≠ DOWN) → (∃ c, f c = DEGRADED) →
     overall_status (get_pipeline_status now self) = DEGRADED)
  ∧ ((∀ c, f c ≠ DOWN) → (∀ c, f c ≠ DEGRADED) → (∃ c, f c = RECOVERING) →
     overall_status (get_pipeline_status now self) = RECOVERING)
  ∧ ((∀ c, f c = HEALTHY) →
     overall_status (get_pipeline_status now self) = HEALTHY).
Proof.
  intros Hd. cbn [get_pipeline_status overall_status].
  rewrite (values_total _ f Hd).
  repeat split.
  - intros Hdown. apply any_is_assignment in Hdown. by rewrite Hdown.
  - intros Hnd Hdeg.
    apply any_is_assignment_false in Hnd. apply any_is_assignment in Hdeg.
    by rewrite Hnd, Hdeg.
  - intros Hnd Hng Hrec.
    apply any_is_assignment_false in Hnd, Hng. apply any_is_assignment in Hrec.
    by rewrite Hnd, Hng, Hrec.
  - intros Hall.
    assert (∀ s, s ≠ HEALTHY → any_is s (f <$> all_components) = false) as Hno.
    { intros s Hs. apply any_is_assignment_false. intros c. by rewrite Hall. }
    by rewrite !Hno.
Qed.

Lemma overall_status_precedence_witness :
  overall_status
    (get_pipeline_status 0 (with_statuses (one_down NETWORK) (init 30 DefaultAlert)))
  = DOWN.
Proof.
  refine (proj1 (overall_status_precedence 0 _ (one_down NETWORK) _) _).
  - intros c. destruct c; reflexivity.
  - exists NETWORK. reflexivity.
Defined.

(** ** Uptime *)



(** ** The recovery policy table *)

(** C7. [_is_auto_recoverable] is false for the validation service and true
    for the network, the database, the storage and the queue, whatever the
    state of the monitor. *)
Theorem is_auto_recoverable_table (self : Monitor) :
  _is_auto_recoverable self VALIDATION_SERVICE = false
  ∧ _is_auto_recoverable self NETWORK = true
  ∧ _is_auto_recoverable self DATABASE = true
  ∧ _is_auto_recoverable self STORAGE = true
  ∧ _is_auto_recoverable self QUEUE = true
  ∧ ∀ (other : Monitor) (c : PipelineComponent),
      _is_auto_recoverable self c = _is_auto_recoverable other c.
Proof. repeat split. Qed.

(** ** Recent failures *)


Lemma length_slice_last {A} (n : nat) (l : list A) :
  (length (slice_last n l) ≤ n)%nat.
Proof. unfold slice_last. rewrite length_drop. lia. Qed.

Lemma omap_filter_fmap {A B} (P : A -> Prop) `{!∀ x, Decision (P x)} (g : A -> B)
    (l : list A) :
  omap (fun x => if decide (P x) then Some (g x) else None) l = g <$> filter P l.
Proof.
  induction l as [|x l IH]; [done|].
  cbn [omap list_omap]. rewrite filter_cons.
  destruct (decide (P x)); cbn; by rewrite IH.
Qed.


(** The window is taken before the filter: a failure older than the last
    ten entries is not reported, even when fewer than ten failures are. *)
Lemma window_taken_before_filter :
  let log := sample_check NETWORK DOWN 0 :: replicate 10 (sample_check QUEUE HEALTHY 1) in
  let self := with_recent_checks (fun _ => log) (init 30 DefaultAlert) in
  recent_failures (get_pipeline_status 2 self) = []
  ∧ reduced <$> last_entries 10
       (filter (fun check => HealthCheck.status check ≠ HEALTHY) log)
    = [reduced (sample_check NETWORK DOWN 0)].
Proof. split; reflexivity. Qed.

(** ** Health checks *)

Lemma with_audit_log_nil (self : Monitor) :
  with_audit_log (fun log => log ++ []) self = self.
Proof. destruct self. unfold with_audit_log. cbn. by rewrite app_nil_r. Qed.

Lemma with_audit_log_app (l1 l2 : list AuditRecord) (self : Monitor) :
  with_audit_log (fun log => log ++ l2) (with_audit_log (fun log => log ++ l1) self)
  = with_audit_log (fun log => log ++ l1 ++ l2) self.
Proof. unfold with_audit_log. cbn. by rewrite app_assoc. Qed.

Lemma collect_checks_returned (checks : list (outcome HealthCheck.t))
    (results : list HealthCheck.t) (self : Monitor) :
  collect_checks checks results self
  = (Return (results ++ returned checks),
     with_audit_log (fun log => log ++ (HEALTH_CHECK <$> returned checks)) self).
Proof.
  revert results self. induction checks as [|[check|e] rest IH]; intros results self.
  - cbn. by rewrite app_nil_r, with_audit_log_nil.
  - cbn [collect_checks]. unfold mbind, M_bind, log_health_check, modify.
    rewrite IH. cbn [returned omap list_omap fmap list_fmap].
    by rewrite with_audit_log_app, <- app_assoc.
  - cbn [collect_checks]. by rewrite IH.
Qed.

Lemma source_probe_returns (component : PipelineComponent) (rate : float)
    (fault : string) (meta : metadata_t) (env : ProbeEnv) :
  ∃ check, probe component rate fault meta env = Return check
           ∧ HealthCheck.component check = component
           ∧ (HealthCheck.status check = HEALTHY ∨ HealthCheck.status check = DOWN).
Proof.
  unfold probe. destruct (PrimFloat.ltb _ _); eexists; (split; [reflexivity|]); cbn; auto.
Qed.

(** C5. [perform_health_checks] returns the results of the probes that
    returned, in probe order, and nothing for a probe that raised; it
    appends one health-check record per returned result to the audit trail
    and changes nothing else. When the five probes return, the list is
    their five results; with the probes of the source, which never raise,
    it covers the five components once each. *)
Theorem perform_health_checks_results (p : Probes) (self : Monitor)
    (h1 h2 h3 h4 h5 : HealthCheck.t) (e1 e2 e3 e4 e5 : ProbeEnv) :
  perform_health_checks p self
  = (Return (returned (gather p)),
     with_audit_log (fun log => log ++ (HEALTH_CHECK <$> returned (gather p))) self)
  ∧ returned (gather {| run_check_network := Return h1;
                        run_check_validation_service := Return h2;
                        run_check_database := Return h3;
                        run_check_storage := Return h4;
                        run_check_queue := Return h5 |})
    = [h1; h2; h3; h4; h5]
  ∧ HealthCheck.component <$> returned (gather (source_probes e1 e2 e3 e4 e5))
    = all_components.
Proof.
  split; [|split].
  - unfold perform_health_checks. by rewrite collect_checks_returned.
  - reflexivity.
  - unfold source_probes, gather, check_network, check_validation_service,
      check_database, check_storage, check_queue. cbn [run_check_network
      run_check_validation_service run_check_database run_check_storage run_check_queue].
    destruct (source_probe_returns NETWORK 0.05%float "Network timeout" None e1)
      as (c1 & -> & H1 & _).
    destruct (source_probe_returns VALIDATION_SERVICE 0.03%float
                "Validation service unresponsive" (Some [("active_validations", 5)]) e2)
      as (c2 & -> & H2 & _).
    destruct (source_probe_returns DATABASE 0.02%float "Database connection lost"
                (Some [("active_connections", 10); ("pool_size", 20)]) e3)
      as (c3 & -> & H3 & _).
    destruct (source_probe_returns STORAGE 0.01%float "Storage service unavailable"
                (Some [("disk_usage_percent", 65)]) e4)
      as (c4 & -> & H4 & _).
    destruct (source_probe_returns QUEUE 0.04%float "Queue broker connection failed"
                (Some [("pending_messages", 42)]) e5)
      as (c5 & -> & H5 & _).
    cbn. by rewrite H1, H2, H3, H4, H5.
Qed.

(** ** Recovery attempts *)

Lemma run_action_pure (ex : Executors) (action : RecoveryAction)
    (component : PipelineComponent) (self : Monitor) :
  ∃ r, run_action ex action component self = (r, self).
Proof. destruct action; cbn; eauto. Qed.

Lemma recover_with_outcome (env : RecoveryEnv) (action : RecoveryAction)
    (component : PipelineComponent) (self : Monitor) :
  ∃ attempt self',
    recover_with env action component self = (Return attempt, self')
    ∧ RecoveryAttempt.component attempt = component
    ∧ RecoveryAttempt.action attempt = action
    ∧ ((run_action (executors env) action component (recovering component self)
        = (Return tt, recovering component self)
        ∧ RecoveryAttempt.success attempt = true
        ∧ RecoveryAttempt.error_message attempt = None
        ∧ settled self self' component HEALTHY 1 0 attempt)
       ∨ (∃ e,
           run_action (executors env) action component (recovering component self)
           = (Raise e, recovering component self)
           ∧ RecoveryAttempt.success attempt = false
           ∧ RecoveryAttempt.error_message attempt = Some (str e)
           ∧ settled self self' component DOWN 0 1 attempt)).
Proof.
  destruct (run_action_pure (executors env) action component
              (recovering component self)) as [r Hr].
  unfold recover_with, try_except, mbind, M_bind, set_status, modify.
  fold (recovering component self). rewrite Hr.
  destruct r as [[]|e]; cbn.
  - eexists _, _. split; [reflexivity|]. split; [reflexivity|]. split; [reflexivity|].
    left. repeat split; cbn; try lia. by rewrite insert_insert_eq.
  - eexists _, _. split; [reflexivity|]. split; [reflexivity|]. split; [reflexivity|].
    right. exists e. repeat split; cbn; try lia. by rewrite insert_insert_eq.
Qed.


(** No component is mapped to manual intervention. *)
Lemma recovery_map_automated (component : PipelineComponent) :
  default MANUAL_INTERVENTION (recovery_map !! component) ≠ MANUAL_INTERVENTION.
Proof. by destruct component. Qed.

(** Projections of updated monitors, without unfolding the map operations. *)
Ltac fields :=
  cbn [fst snd check_interval alert_callback audit_log component_status recent_checks
       recovery_attempts total_checks failed_checks successful_recoveries
       failed_recoveries _monitoring with_audit_log with_component_status
       with_recent_checks with_recovery_attempts with_total_checks with_failed_checks
       with_successful_recoveries with_failed_recoveries with_monitoring] in *.

(** ** Relations kept by the monitor's methods *)

Section Preserves.
Context (R : relation Monitor) `{!PreOrder R}.

Lemma preserves_ret {A} (a : A) : preserves R (mret a).
Proof. intros self. reflexivity. Qed.

Lemma preserves_raise {A} (e : exn) : preserves R (raise (A:=A) e).
Proof. intros self. reflexivity. Qed.

Lemma preserves_read {A} (f : Monitor -> A) : preserves R (read f).
Proof. intros self. reflexivity. Qed.

Lemma preserves_modify (f : Monitor -> Monitor) :
  (∀ self, R self (f self)) → preserves R (modify f).
Proof. intros Hf self. apply Hf. Qed.

Lemma preserves_bind {A B} (m : M A) (f : A -> M B) :
  preserves R m → (∀ a, preserves R (f a)) → preserves R (m ≫= f).
Proof.
  intros Hm Hf self. unfold mbind, M_bind.
  specialize (Hm self). destruct (m self) as [[a|e] self'] eqn:Heq; cbn in Hm.
  - etransitivity; [exact Hm | apply Hf].
  - exact Hm.
Qed.

Lemma preserves_try_except {A} (body : M A) (handler : exn -> M A) :
  preserves R body → (∀ e, preserves R (handler e)) → preserves R (try_except body handler).
Proof.
  intros Hm Hh self. unfold try_except.
  specialize (Hm self). destruct (body self) as [[a|e] self'] eqn:Heq; cbn in Hm.
  - exact Hm.
  - etransitivity; [exact Hm | apply Hh].
Qed.

Lemma preserves_for_each {A} (body : nat -> A -> M unit) (l : list A) (i : nat) :
  (∀ i x, preserves R (body i x)) → preserves R (for_each i l body).
Proof.
  intros Hbody. revert i. induction l as [|x l IH]; intros i; cbn [for_each].
  - apply preserves_ret.
  - apply preserves_bind; [apply Hbody | intros _; apply IH].
Qed.
End Preserves.

(** ** The monitor loop *)

(** A step that leaves the status map and the recovery log alone. *)
Lemma loop_step_same (self self' : Monitor) :
  alert_callback self' = alert_callback self →
  _monitoring self' = _monitoring self →
  recovery_attempts self' = recovery_attempts self →
  component_status self' = component_status self →
  loop_step self self'.
Proof.
  intros Ha Hm Hl Hs. split; [done|]. split; [done|].
  exists []. rewrite app_nil_r. split; [done|]. split.
  - intros a Hin. by apply elem_of_nil in Hin.
  - intros c. rewrite Hs. auto.
Qed.

#[export] Instance loop_step_preorder : PreOrder loop_step.
Proof.
  split.
  - intros self. by apply loop_step_same.
  - intros s1 s2 s3 (Ha1 & Hm1 & new1 & Hl1 & Hv1 & Hh1)
                    (Ha2 & Hm2 & new2 & Hl2 & Hv2 & Hh2).
    split; [congruence|]. split; [congruence|].
    exists (new1 ++ new2). split; [by rewrite Hl2, Hl1, app_assoc|]. split.
    + intros a [Ha|Ha]%elem_of_app; auto.
    + intros c Hc. destruct (Hh2 c Hc) as [Hmid|(a & Ha & Hac & Has)].
      * destruct (Hh1 c Hmid) as [?|(a & Ha & Hac & Has)]; [by left|].
        right. exists a. split; [apply elem_of_app; by left | done].
      * right. exists a. split; [apply elem_of_app; by right | done].
Qed.

Lemma set_status_loop_step (c : PipelineComponent) (status : HealthStatus) :
  status ≠ HEALTHY → preserves loop_step (set_status c status).
Proof.
  intros Hbad self. unfold set_status, modify, loop_step. fields.
  split; [done|]. split; [done|].
  exists []. rewrite app_nil_r. split; [done|]. split.
  - intros a Hin. by apply elem_of_nil in Hin.
  - intros c'. destruct (decide (c = c')) as [<-|Hne].
    + rewrite lookup_insert_eq. intros [= Heq]. by destruct Hbad.
    + rewrite lookup_insert_ne by done. auto.
Qed.

Lemma attempt_recovery_loop_step (env : RecoveryEnv) (c : PipelineComponent) :
  c ≠ VALIDATION_SERVICE → preserves loop_step (attempt_recovery env c).
Proof.
  intros Hauto self. unfold attempt_recovery.
  destruct (recover_with_outcome env
              (default MANUAL_INTERVENTION (recovery_map !! c)) c self)
    as (attempt & self' & -> & Hc & _ & Hcases).
  cbn [snd].
  assert (∃ final ok ko,
    settled self self' c final ok ko attempt
    ∧ (final = HEALTHY → RecoveryAttempt.success attempt = true)) as
    (final & ok & ko & Hset & Hfin).
  { destruct Hcases as [(_ & Hok & _ & Hset)|(e & _ & Hko & _ & Hset)].
    - by exists HEALTHY, 1, 0.
    - exists DOWN, 0, 1. split; [done|]. discriminate. }
  destruct Hset as (Hst & _ & _ & Hlog & _ & _ & _ & _ & Hal & Hmo).
  split; [done|]. split; [done|].
  exists [attempt]. split; [done|]. split.
  - intros a ->%list_elem_of_singleton. congruence.
  - intros c'. rewrite Hst. destruct (decide (c = c')) as [<-|Hne].
    + rewrite lookup_insert_eq. intros [= Heq]. right. exists attempt.
      split; [by apply list_elem_of_singleton | auto].
    + rewrite lookup_insert_ne by done. auto.
Qed.

Lemma call_alert_callback_loop_step (c : PipelineComponent) (status : HealthStatus) :
  preserves loop_step (call_alert_callback c status).
Proof.
  intros self. unfold call_alert_callback.
  destruct (alert_callback self); by apply loop_step_same.
Qed.

Lemma process_check_loop_step (env : CycleEnv) (i : nat) (check : HealthCheck.t) :
  preserves loop_step (process_check env i check).
Proof.
  unfold process_check.
  destruct (decide (HealthCheck.status check ≠ HEALTHY)) as [Hbad|_];
    [|apply preserves_ret; apply _].
  apply preserves_bind; [apply _ | |intros _].
  { apply preserves_modify. intros self. by apply loop_step_same. }
  apply preserves_bind; [apply _ | |intros _].
  { apply preserves_modify. intros self. by apply loop_step_same. }
  apply preserves_bind; [apply _ | apply call_alert_callback_loop_step |intros _].
  apply preserves_bind; [apply _ | by apply set_status_loop_step |intros _].
  intros self. unfold mbind, M_bind, read, _is_auto_recoverable.
  destruct (decide (HealthCheck.component check = VALIDATION_SERVICE)) as [Hvs|Hauto].
  - rewrite bool_decide_eq_false_2 by auto. reflexivity.
  - rewrite bool_decide_eq_true_2 by done.
    pose proof (attempt_recovery_loop_step (recovery env i) _ Hauto self) as Hstep.
    destruct (attempt_recovery _ _ self) as [[a|e] self']; exact Hstep.
Qed.

Lemma perform_health_checks_eq (p : Probes) (self : Monitor) :
  perform_health_checks p self
  = (Return (returned (gather p)),
     with_audit_log (fun log => log ++ (HEALTH_CHECK <$> returned (gather p))) self).
Proof. unfold perform_health_checks. by rewrite collect_checks_returned. Qed.

Lemma monitor_cycle_unfold (env : CycleEnv) (self : Monitor) :
  monitor_cycle env self
  = match for_each 0 (returned (gather (probes env))) (process_check env)
            (before_processing env self) with
    | (Return a, self') => (Return a, self')
    | (Raise e, self') =>
        (Return tt,
         with_audit_log (fun log => log ++ [LOG ERROR ("Monitor loop error: " +:+ str e)])
           self')
    end.
Proof.
  unfold monitor_cycle, try_except, mbind, M_bind.
  rewrite perform_health_checks_eq. reflexivity.
Qed.

Lemma monitor_cycle_loop_step (env : CycleEnv) : preserves loop_step (monitor_cycle env).
Proof.
  intros self. rewrite monitor_cycle_unfold.
  pose proof (preserves_for_each loop_step (process_check env)
                (returned (gather (probes env))) 0
                (process_check_loop_step env) (before_processing env self)) as Hfor.
  assert (loop_step self (before_processing env self)) as Hpre
    by (by apply loop_step_same).
  destruct (for_each _ _ _ _) as [[a|e] self']; cbn [snd] in *.
  - by etransitivity.
  - etransitivity; [exact Hpre|]. etransitivity; [exact Hfor|]. by apply loop_step_same.
Qed.

Lemma monitor_loop_loop_step (envs : list CycleEnv) : preserves loop_step (monitor_loop envs).
Proof.
  induction envs as [|env rest IH]; cbn [monitor_loop].
  - apply preserves_ret; apply _.
  - intros self. unfold mbind at 1, M_bind at 1, read. cbn.
    destruct (_monitoring self); [|reflexivity].
    apply (preserves_bind loop_step (monitor_cycle env) (fun _ => monitor_loop rest));
      [apply monitor_cycle_loop_step | intros _; apply IH].
Qed.

(** ** The two logs *)

#[export] Instance same_recent_checks_preorder : PreOrder same_recent_checks.
Proof.
  split; [done|]. intros s1 s2 s3 H1 H2. unfold same_recent_checks in *. congruence.
Qed.

Lemma process_check_recent_checks (env : CycleEnv) (i : nat) (check : HealthCheck.t) :
  preserves same_recent_checks (process_check env i check).
Proof.
  unfold process_check.
  destruct (decide (HealthCheck.status check ≠ HEALTHY)) as [Hbad|_];
    [|apply preserves_ret; apply _].
  apply preserves_bind; [apply _ | by apply preserves_modify | intros _].
  apply preserves_bind; [apply _ | by apply preserves_modify | intros _].
  apply preserves_bind; [apply _ | | intros _].
  { intros self. unfold call_alert_callback. by destruct (alert_callback self). }
  apply preserves_bind; [apply _ | by apply preserves_modify | intros _].
  apply preserves_bind; [apply _ | apply preserves_read; apply _ | intros recoverable].
  destruct recoverable; [|apply preserves_ret; apply _].
  apply preserves_bind; [apply _ | |intros ?; apply preserves_ret; apply _].
    intros self. unfold attempt_recovery.
    destruct (recover_with_outcome (recovery env i)
                (default MANUAL_INTERVENTION
                   (recovery_map !! HealthCheck.component check))
                (HealthCheck.component check) self)
      as (attempt & self' & -> & _ & _ & [(_ & _ & _ & Hset)|(e & _ & _ & _ & Hset)]);
      apply Hset.
Qed.

Lemma monitor_cycle_recent_checks (env : CycleEnv) (self : Monitor) :
  recent_checks (monitor_cycle env self).2
  = slice_last 100 (recent_checks self ++ returned (gather (probes env))).
Proof.
  rewrite monitor_cycle_unfold.
  pose proof (preserves_for_each same_recent_checks (process_check env)
                (returned (gather (probes env))) 0
                (process_check_recent_checks env) (before_processing env self)) as Hfor.
  unfold same_recent_checks in Hfor.
  destruct (for_each _ _ _ _) as [[a|e] self']; fields; by rewrite Hfor.
Qed.

Lemma slice_last_short {A} (n : nat) (l : list A) :
  (length l ≤ n)%nat → slice_last n l = l.
Proof. intros Hlen. unfold slice_last. by replace (length l - n)%nat with 0%nat by lia. Qed.

(** Trimming after every append keeps what one trim at the end keeps. *)
Lemma slice_last_app {A} (n : nat) (l k : list A) :
  slice_last n (slice_last n l ++ k) = slice_last n (l ++ k).
Proof.
  unfold slice_last.
  rewrite <- (drop_app_le l k (length l - n)) by lia.
  rewrite drop_drop, length_drop. f_equal. rewrite length_app. lia.
Qed.

Lemma monitor_loop_recent_checks (envs : list CycleEnv) (self : Monitor) :
  _monitoring self = true →
  (length (recent_checks self) ≤ 100)%nat →
  recent_checks (monitor_loop envs self).2
  = slice_last 100 (recent_checks self ++ all_results envs).
Proof.
  revert self. induction envs as [|env rest IH]; intros self Hmon Hlen.
  - cbn. by rewrite app_nil_r, slice_last_short.
  - cbn [monitor_loop]. unfold mbind at 1, M_bind at 1, read. cbn [fst snd].
    rewrite Hmon.
    pose proof (monitor_cycle_loop_step env self) as (_ & Hmon' & _).
    pose proof (monitor_cycle_recent_checks env self) as Hrc.
    unfold mbind, M_bind.
    destruct (monitor_cycle env self) as [[[]|e] self'] eqn:Hcycle; fields.
    + rewrite IH; [| congruence | rewrite Hrc; apply length_slice_last].
      rewrite Hrc, slice_last_app. unfold all_results. cbn. by rewrite app_assoc.
    + rewrite monitor_cycle_unfold in Hcycle.
      destruct (for_each _ _ _ _) as [[a|e'] s]; discriminate.
Qed.

(** C1, as the code has it. Over a run of the monitor loop of any length,
    started with at most 100 recent checks, the recent-checks log is the
    last 100 of the entries it had followed by every result returned
    since, so it holds at most 100 entries and loses the oldest first. The
    recovery log only grows at its end; nothing bounds it. *)
Theorem recent_checks_bounded_recovery_log_appended (envs : list CycleEnv)
    (self : Monitor) :
  _monitoring self = true →
  (length (recent_checks self) ≤ 100)%nat →
  recent_checks (monitor_loop envs self).2
  = slice_last 100 (recent_checks self ++ all_results envs)
  ∧ (length (recent_checks (monitor_loop envs self).2) ≤ 100)%nat
  ∧ ∃ new,
      recovery_attempts (monitor_loop envs self).2 = recovery_attempts self ++ new.
Proof.
  intros Hmon Hlen.
  pose proof (monitor_loop_recent_checks envs self Hmon Hlen) as Hrc.
  split; [done|]. split.
  - rewrite Hrc. apply length_slice_last.
  - destruct (monitor_loop_loop_step envs self) as (_ & _ & new & Hnew & _).
    by exists new.
Qed.

Lemma recent_checks_bounded_recovery_log_appended_witness :
  (length (recent_checks
             (monitor_loop (replicate 30 network_fault) started).2) ≤ 100)%nat.
Proof.
  refine (proj1 (proj2
    (recent_checks_bounded_recovery_log_appended (replicate 30 network_fault) started _ _))).
  - reflexivity.
  - change (0 ≤ 100)%nat. lia.
Defined.

Lemma process_check_healthy (env : CycleEnv) (i : nat) (check : HealthCheck.t)
    (self : Monitor) :
  HealthCheck.status check = HEALTHY → process_check env i check self = (Return tt, self).
Proof.
  intros Hok. unfold process_check.
  by destruct (decide (HealthCheck.status check ≠ HEALTHY)).
Qed.

Lemma process_check_attempt (env : CycleEnv) (i : nat) (check : HealthCheck.t)
    (self : Monitor) :
  alert_callback self = DefaultAlert →
  HealthCheck.status check ≠ HEALTHY →
  HealthCheck.component check ≠ VALIDATION_SERVICE →
  ∃ self',
    process_check env i check self = (Return tt, self')
    ∧ alert_callback self' = DefaultAlert
    ∧ length (recovery_attempts self') = S (length (recovery_attempts self)).
Proof.
  intros Hcb Hbad Hauto. unfold process_check.
  destruct (decide (HealthCheck.status check ≠ HEALTHY)); [|done].
  unfold mbind, M_bind, modify, log_failure_detected, call_alert_callback, set_status,
    read, _is_auto_recoverable, _default_alert, log_alert_triggered, attempt_recovery.
  unfold modify. fields. rewrite Hcb. fields. rewrite bool_decide_eq_true_2 by done.
  match goal with
  | |- context [recover_with ?env ?a ?c ?s] =>
      destruct (recover_with_outcome env a c s)
        as (attempt & self' & -> & _ & _ & Hcases)
  end.
  exists self'. split; [done|].
  assert (∃ final ok ko, settled
            (with_component_status
               (fun d => <[HealthCheck.component check := HealthCheck.status check]> d)
               (with_audit_log
                  (fun log => log ++ [ALERT_TRIGGERED (HealthCheck.component check)
                     (if decide (HealthCheck.status check = DOWN)
                      then "CRITICAL" else "WARNING")])
                  (with_audit_log
                     (fun log => log ++ [FAILURE_DETECTED (HealthCheck.component check)
                        (or_else (HealthCheck.error_message check) "Unknown error")])
                     (with_failed_checks (fun n => n + 1) self))))
            self' (HealthCheck.component check) final ok ko attempt)
    as (final & ok & ko & Hset).
  { destruct Hcases as [(_ & _ & _ & Hset)|(e & _ & _ & _ & Hset)]; eauto. }
  destruct Hset as (_ & _ & _ & Hlog & _ & _ & _ & _ & Hal & _). fields.
  split; [congruence|]. rewrite Hlog, length_app. cbn. lia.
Qed.

Lemma network_fault_cycle (self : Monitor) :
  alert_callback self = DefaultAlert →
  alert_callback (monitor_cycle network_fault self).2 = DefaultAlert
  ∧ length (recovery_attempts (monitor_cycle network_fault self).2)
    = S (length (recovery_attempts self)).
Proof.
  intros Hcb. rewrite monitor_cycle_unfold.
  set (start := before_processing network_fault self).
  assert (alert_callback start = DefaultAlert) as Hcb0 by done.
  assert (length (recovery_attempts start) = length (recovery_attempts self)) as <- by done.
  clearbody start.
  replace (returned (gather (probes network_fault))) with
    [HealthCheck.mk NETWORK DOWN 50001 None (Some "Network timeout") None;
     HealthCheck.mk VALIDATION_SERVICE HEALTHY 50001 (Some 50%float) None
       (Some [("active_validations", 5)]);
     HealthCheck.mk DATABASE HEALTHY 50001 (Some 50%float) None
       (Some [("active_connections", 10); ("pool_size", 20)]);
     HealthCheck.mk STORAGE HEALTHY 50001 (Some 50%float) None
       (Some [("disk_usage_percent", 65)]);
     HealthCheck.mk QUEUE HEALTHY 50001 (Some 50%float) None
       (Some [("pending_messages", 42)])]
    by (vm_compute; reflexivity).
  assert (∃ self',
    for_each 0
      [HealthCheck.mk NETWORK DOWN 50001 None (Some "Network timeout") None;
       HealthCheck.mk VALIDATION_SERVICE HEALTHY 50001 (Some 50%float) None
         (Some [("active_validations", 5)]);
       HealthCheck.mk DATABASE HEALTHY 50001 (Some 50%float) None
         (Some [("active_connections", 10); ("pool_size", 20)]);
       HealthCheck.mk STORAGE HEALTHY 50001 (Some 50%float) None
         (Some [("disk_usage_percent", 65)]);
       HealthCheck.mk QUEUE HEALTHY 50001 (Some 50%float) None
         (Some [("pending_messages", 42)])]
      (process_check network_fault) start = (Return tt, self')
    ∧ alert_callback self' = DefaultAlert
    ∧ length (recovery_attempts self') = S (length (recovery_attempts start)))
    as (self' & -> & Hcb' & Hlen).
  { destruct (process_check_attempt network_fault 0
                (HealthCheck.mk NETWORK DOWN 50001 None (Some "Network timeout") None)
                start Hcb0) as (self' & Hrun & Hcb' & Hlen); [done | done |].
    exists self'. split; [|done].
    cbn [for_each]. unfold mbind, M_bind. rewrite Hrun.
    by rewrite !process_check_healthy by reflexivity. }
  done.
Qed.

Lemma network_fault_run (n : nat) (self : Monitor) :
  _monitoring self = true →
  alert_callback self = DefaultAlert →
  length (recovery_attempts (monitor_loop (replicate n network_fault) self).2)
  = (length (recovery_attempts self) + n)%nat.
Proof.
  revert self. induction n as [|n IH]; intros self Hmon Hcb.
  - cbn. lia.
  - cbn [replicate monitor_loop]. unfold mbind at 1, M_bind at 1, read. cbn [fst snd].
    rewrite Hmon.
    pose proof (monitor_cycle_loop_step network_fault self) as (_ & Hmon' & _).
    pose proof (network_fault_cycle self Hcb) as (Hcb' & Hlen).
    unfold mbind, M_bind.
    destruct (monitor_cycle network_fault self) as [[[]|e] self'] eqn:Hcycle; fields.
    + rewrite IH by congruence. lia.
    + rewrite monitor_cycle_unfold in Hcycle.
      destruct (for_each _ _ _ _) as [[a|e'] s]; discriminate.
Qed.

(** Against C1 as stated: no retention size bounds the recovery log. For
    every candidate bound, a run of the loop in which the network probe
    faults in each cycle leaves more attempts in the log. *)
Lemma recovery_log_exceeds_every_bound :
  ¬ ∃ bound : nat, ∀ envs : list CycleEnv,
      (length (recovery_attempts (monitor_loop envs started).2) ≤ bound)%nat.
Proof.
  intros (bound & Hbound).
  specialize (Hbound (replicate (S bound) network_fault)).
  rewrite network_fault_run in Hbound by reflexivity.
  cbn in Hbound. lia.
Qed.

(** ** The manual-recovery endpoint *)

Lemma component_of_value_Some (name : string) (comp : PipelineComponent) :
  component_of_value name = Some comp ↔ component_value comp = name.
Proof.
  unfold component_of_value, all_components. split.
  - intros Hfind. apply fmap_Some in Hfind as ([i c] & Hfind & ->).
    by apply list_find_Some in Hfind as (_ & Hc & _).
  - intros <-. by destruct comp.
Qed.

Lemma component_of_value_None (name : string) :
  component_of_value name = None ↔ name ∉ component_value <$> all_components.
Proof.
  split.
  - intros Hnone (c & -> & _)%list_elem_of_fmap.
    by rewrite (proj2 (component_of_value_Some _ c) eq_refl) in Hnone.
  - intros Hnot. destruct (component_of_value name) as [c|] eqn:Hc; [|done].
    apply component_of_value_Some in Hc as <-. destruct Hnot.
    apply list_elem_of_fmap. exists c. split; [done | apply all_components_complete].
Qed.

Lemma component_of_value_value (comp : PipelineComponent) :
  component_of_value (component_value comp) = Some comp.
Proof. by apply component_of_value_Some. Qed.

Lemma trigger_recovery_unknown (env : RecoveryEnv) (stamp : datetime) (name : string)
    (self : Monitor) :
  component_of_value name = None →
  trigger_recovery env stamp name self
  = (Raise (HTTPException 500 (str (HTTPException 400 invalid_component_detail))), self).
Proof. intros Hnone. unfold trigger_recovery, try_except, mbind, M_bind. by rewrite Hnone. Qed.

Lemma trigger_recovery_healthy (env : RecoveryEnv) (stamp : datetime) (name : string)
    (comp : PipelineComponent) (self : Monitor) :
  component_of_value name = Some comp →
  component_status self !! comp = Some HEALTHY →
  trigger_recovery env stamp name self = (Return (already_healthy name stamp), self).
Proof.
  intros Hcomp Hok. unfold trigger_recovery, try_except, mbind, M_bind, get_status.
  rewrite Hcomp. cbn [mret M_ret]. by rewrite Hok.
Qed.

Lemma trigger_recovery_attempt (env : RecoveryEnv) (stamp : datetime) (name : string)
    (comp : PipelineComponent) (status : HealthStatus) (self : Monitor) :
  component_of_value name = Some comp →
  component_status self !! comp = Some status →
  status ≠ HEALTHY →
  trigger_recovery env stamp name self
  = match attempt_recovery env comp self with
    | (Return attempt, self') => (Return (attempt_report name attempt), self')
    | (Raise e, self') => (Raise (HTTPException 500 (str e)), self')
    end.
Proof.
  intros Hcomp Hst Hbad. unfold trigger_recovery, try_except, mbind, M_bind, get_status.
  rewrite Hcomp. cbn [mret M_ret]. rewrite Hst.
  destruct (decide (status = HEALTHY)); [done|].
  by destruct (attempt_recovery env comp self) as [[a|e] s].
Qed.

(** C8. [trigger_recovery] checks the name against the values of the five
    components. For any other name the caller gets an HTTP error and the
    monitor is untouched. For a component whose status is healthy the
    caller gets the already-healthy success body, whatever the executors
    would have done, and the monitor is untouched. A known name is never
    rejected: the caller gets a body. *)
Theorem trigger_recovery_validation (env : RecoveryEnv) (stamp : datetime)
    (name : string) (self : Monitor) :
  (name ∉ component_value <$> all_components →
   ∃ detail,
     trigger_recovery env stamp name self = (Raise (HTTPException 500 detail), self))
  ∧ (∀ comp,
       name = component_value comp →
       component_status self !! comp = Some HEALTHY →
       ∀ env' : RecoveryEnv,
         trigger_recovery env' stamp name self
         = (Return (already_healthy name stamp), self))
  ∧ (∀ comp status,
       name = component_value comp →
       component_status self !! comp = Some status →
       ∃ body self', trigger_recovery env stamp name self = (Return body, self')).
Proof.
  split; [|split].
  - intros Hnot%component_of_value_None. eexists.
    by apply trigger_recovery_unknown.
  - intros comp -> Hok env'.
    apply (trigger_recovery_healthy env' stamp _ comp); [apply component_of_value_value | done].
  - intros comp status -> Hst.
    destruct (decide (status = HEALTHY)) as [->|Hbad].
    + eexists _, _.
      apply (trigger_recovery_healthy env stamp _ comp); [apply component_of_value_value | done].
    + rewrite (trigger_recovery_attempt env stamp _ comp status)
        by (done || apply component_of_value_value).
      unfold attempt_recovery.
      destruct (recover_with_outcome env
                  (default MANUAL_INTERVENTION (recovery_map !! comp)) comp self)
        as (attempt & self' & -> & _).
      by eexists _, _.
Qed.

Lemma trigger_recovery_validation_witness :
  (∃ detail,
     trigger_recovery lucky 7 "cache" started = (Raise (HTTPException 500 detail), started))
  ∧ trigger_recovery unlucky 7 "network" started
    = (Return (already_healthy "network" 7), started).
Proof.
  split.
  - refine (proj1 (trigger_recovery_validation lucky 7 "cache" started) _).
    vm_compute. intros Hin. repeat (inversion_clear Hin as [|? ? ? Hin']; rename Hin' into Hin).
  - refine (proj1 (proj2 (trigger_recovery_validation lucky 7 "network" started))
              NETWORK _ _ unlucky); reflexivity.
Defined.

(** ** Return to healthy *)

(** C10. Under the monitor loop a component that is not healthy becomes
    healthy only through a successful recovery attempt for it, recorded in
    the recovery log; a probe result reporting healthy writes nothing. The
    validation service, which the loop never tries to recover, stays
    non-healthy under the loop, and a manual recovery request whose
    executor returns makes it healthy. *)
Theorem healthy_only_through_recovery (envs : list CycleEnv) (self : Monitor)
    (c : PipelineComponent) (status : HealthStatus) :
  component_status self !! c = Some status →
  status ≠ HEALTHY →
  (component_status (monitor_loop envs self).2 !! c = Some HEALTHY →
   ∃ new a,
     recovery_attempts (monitor_loop envs self).2 = recovery_attempts self ++ new
     ∧ a ∈ new
     ∧ RecoveryAttempt.component a = c
     ∧ RecoveryAttempt.success a = true)
  ∧ (c = VALIDATION_SERVICE →
     component_status (monitor_loop envs self).2 !! c ≠ Some HEALTHY)
  ∧ (∀ env i check,
       HealthCheck.status check = HEALTHY →
       process_check env i check self = (Return tt, self))
  ∧ (∀ env stamp,
       run_action (executors env) (default MANUAL_INTERVENTION (recovery_map !! c)) c
         (recovering c self)
       = (Return tt, recovering c self) →
       component_status (trigger_recovery env stamp (component_value c) self).2 !! c
       = Some HEALTHY).
Proof.
  intros Hst Hbad.
  destruct (monitor_loop_loop_step envs self) as (_ & _ & new & Hnew & Hauto & Hhealthy).
  assert (component_status self !! c ≠ Some HEALTHY) as Hnot by congruence.
  split; [|split; [|split]].
  - intros Hend. destruct (Hhealthy c Hend) as [?|(a & Ha & Hac & Has)]; [done|].
    by exists new, a.
  - intros -> Hend. destruct (Hhealthy _ Hend) as [?|(a & Ha & Hac & Has)]; [done|].
    by apply (Hauto a).
  - intros env i check. apply process_check_healthy.
  - intros env stamp Hexec.
    rewrite (trigger_recovery_attempt env stamp _ c status)
      by (done || apply component_of_value_value).
    unfold attempt_recovery.
    destruct (recover_with_outcome env (default MANUAL_INTERVENTION (recovery_map !! c))
                c self)
      as (attempt & self' & -> & _ & _ & [(_ & _ & _ & Hset)|(e & He & _)]).
    + cbn [snd]. destruct Hset as (Hs & _). rewrite Hs. apply lookup_insert_eq.
    + congruence.
Qed.

Lemma healthy_only_through_recovery_witness :
  component_status (monitor_loop (replicate 3 all_quiet) validation_down).2
    !! VALIDATION_SERVICE ≠ Some HEALTHY.
Proof.
  refine (proj1 (proj2 (healthy_only_through_recovery (replicate 3 all_quiet)
                          validation_down VALIDATION_SERVICE DOWN _ _)) eq_refl).
  - vm_compute. reflexivity.
  - discriminate.
Defined.

(** ** Manual requests and attempts in flight *)

(** The interleaved model agrees with [trigger_recovery] when nothing else
    runs between the pieces of one request: the request, then its
    executor's result, then the end of the verification sleep. *)
Lemma trigger_recovery_uninterrupted (env : RecoveryEnv) (stamp : datetime)
    (name : string) (self : Monitor) :
  let result comp :=
    (run_action (executors env) (default MANUAL_INTERVENTION (recovery_map !! comp)) comp
       (recovering comp self)).1 in
  run [ManualRequest (now env) stamp name;
       ExecutorDone 0 (now env) (from_option result (Return tt) (component_of_value name));
       VerificationDone 0 (now env)]
      (idle self)
  = {| monitor := (trigger_recovery env stamp name self).2;
       in_flight := [];
       responses := [(trigger_recovery env stamp name self).1] |}.
Proof.
  intros result. subst result.
  destruct (component_of_value name) as [comp|] eqn:Hcomp.
  2:{ rewrite trigger_recovery_unknown by done.
      unfold run, idle. cbn [foldl step]. unfold trigger_recovery_begin.
      rewrite Hcomp. reflexivity. }
  destruct (component_status self !! comp) as [status|] eqn:Hst.
  2:{ unfold trigger_recovery, try_except, mbind, M_bind, get_status, run, idle.
      cbn [foldl step]. unfold trigger_recovery_begin, get_status. cbn [monitor].
      rewrite Hcomp. cbn [mret M_ret]. rewrite Hst. reflexivity. }
  destruct (decide (status = HEALTHY)) as [->|Hbad].
  { rewrite (trigger_recovery_healthy env stamp name comp) by done.
    unfold run, idle. cbn [foldl step]. unfold trigger_recovery_begin, get_status.
    cbn [monitor]. rewrite Hcomp, Hst. reflexivity. }
  rewrite (trigger_recovery_attempt env stamp name comp status) by done.
  unfold run, idle. cbn [foldl step from_option]. unfold trigger_recovery_begin, get_status.
  cbn [monitor]. rewrite Hcomp, Hst.
  destruct (decide (status = HEALTHY)); [done|].
  unfold attempt_recovery, recover_with, begin_attempt, try_except, mbind, M_bind,
    set_status, modify.
  fold (recovering comp self).
  destruct (run_action_pure (executors env)
              (default MANUAL_INTERVENTION (recovery_map !! comp)) comp
              (recovering comp self)) as [r Hr].
  rewrite Hr. cbn [fst pending_action].
  destruct comp; (destruct r as [[]|e]; reflexivity).
Qed.

(** Against C4 as stated: a manual request for the network starts an
    attempt, the network is then recovering with that attempt suspended in
    its executor, and a second request starts a second attempt beside it. *)
Lemma manual_requests_overlap :
  component_status (monitor first_request) !! NETWORK = Some RECOVERING
  ∧ length (in_flight_for NETWORK first_request) = 1%nat
  ∧ ¬ (length (in_flight_for NETWORK second_request) ≤ 1)%nat.
Proof.
  split; [vm_compute; reflexivity|]. split; [vm_compute; reflexivity|].
  vm_compute. lia.
Qed.

Lemma in_flight_for_app (c : PipelineComponent) (sys : System) (self : Monitor)
    (r : list (outcome RecoveryResponse)) (t : Suspended) :
  length (in_flight_for c
            {| monitor := self; in_flight := in_flight sys ++ [t]; responses := r |})
  = (length (in_flight_for c sys)
     + if decide (suspended_component t = c) then 1 else 0)%nat.
Proof.
  unfold in_flight_for. cbn [in_flight]. rewrite filter_app, length_app.
  f_equal. rewrite filter_cons, filter_nil. by destruct (decide _).
Qed.

(** C4, as the code has it. A manual recovery request for a known component
    starts no attempt when the component is healthy, and starts one more
    attempt for it in every other status, recovering included: the attempts
    in flight for the component are not consulted, none is removed, and the
    new one is suspended in its executor alongside them with the status
    set to recovering. *)
Theorem manual_request_starts_attempt (sys : System) (now : nat -> datetime)
    (stamp : datetime) (name : string) (comp : PipelineComponent)
    (status : HealthStatus) :
  component_of_value name = Some comp →
  component_status (monitor sys) !! comp = Some status →
  let sys' := step sys (ManualRequest now stamp name) in
  (status = HEALTHY →
   in_flight sys' = in_flight sys ∧ monitor sys' = monitor sys)
  ∧ (status ≠ HEALTHY →
     (∃ p, in_flight sys' = in_flight sys ++ [InExecutor p]
           ∧ pending_component p = comp)
     ∧ length (in_flight_for comp sys') = S (length (in_flight_for comp sys))
     ∧ component_status (monitor sys') !! comp = Some RECOVERING).
Proof.
  intros Hcomp Hst sys'. subst sys'. cbn [step].
  unfold trigger_recovery_begin, get_status. rewrite Hcomp, Hst. split.
  - intros ->. destruct (decide (HEALTHY = HEALTHY)); done.
  - intros Hbad. destruct (decide (status = HEALTHY)); [done|].
    unfold begin_attempt, mbind, M_bind, set_status, modify.
    cbn [pending_action].
    pose proof (recovery_map_automated comp) as Hmap.
    destruct (default MANUAL_INTERVENTION (recovery_map !! comp)) eqn:Haction;
      try done; cbn [mret M_ret]; (split; [|split]);
      try (eexists; split; reflexivity);
      try (rewrite in_flight_for_app; cbn [suspended_component pending_component];
           destruct (decide (comp = comp)); [lia | done]);
      fields; cbn [monitor]; fields; apply lookup_insert_eq.
Qed.

Lemma manual_request_starts_attempt_witness :
  length (in_flight_for NETWORK second_request)
  = S (length (in_flight_for NETWORK first_request)).
Proof.
  refine (proj1 (proj2 (proj2 (manual_request_starts_attempt first_request
                                 (fun k => now lucky k + 100) 8
                                 "network" NETWORK RECOVERING _ _) _))).
  - reflexivity.
  - vm_compute. reflexivity.
  - discriminate.
Defined.

(** * Further properties *)

(** ** Probes and executors *)

(** X1. Each of the five probes of the source returns a result for its own
    component and never raises. The result is [DOWN] exactly when the draw
    is below the probe's fault rate; it then carries the fault message and
    no latency. Otherwise it is [HEALTHY] with the measured latency and no
    error. *)
Theorem source_probe_contract (c : PipelineComponent) (env : ProbeEnv) :
  ∃ check,
    source_probe c env = Return check
    ∧ HealthCheck.component check = c
    ∧ HealthCheck.timestamp check = probe_stamp env
    ∧ (HealthCheck.status check = DOWN
       ↔ PrimFloat.ltb (probe_random env) (fault_rate c) = true)
    ∧ (HealthCheck.status check = HEALTHY
       ↔ PrimFloat.ltb (probe_random env) (fault_rate c) = false)
    ∧ (HealthCheck.status check = DOWN →
       HealthCheck.error_message check = Some (fault_message c)
       ∧ HealthCheck.latency_ms check = None)
    ∧ (HealthCheck.status check = HEALTHY →
       HealthCheck.error_message check = None
       ∧ HealthCheck.latency_ms check
         = Some (elapsed_ms (probe_start env) (probe_end env))).
Proof.
  destruct c; cbn [source_probe fault_rate fault_message];
    unfold check_network, check_validation_service, check_database, check_storage,
      check_queue, probe;
    destruct (PrimFloat.ltb (probe_random env) _) eqn:Hdraw;
    eexists; (split; [reflexivity|]); cbn [HealthCheck.component HealthCheck.status
      HealthCheck.timestamp HealthCheck.error_message HealthCheck.latency_ms str];
    repeat split; intros; try done.
Qed.

Lemma source_probe_contract_witness :
  ∃ check, source_probe STORAGE faulty = Return check
           ∧ HealthCheck.error_message check = Some "Storage service unavailable".
Proof.
  destruct (source_probe_contract STORAGE faulty)
    as (check & Hrun & _ & _ & Hdown & _ & Herr & _).
  exists check. split; [exact Hrun|].
  apply Herr, Hdown. reflexivity.
Defined.




(** ** Starting, stopping and forced checks *)

(** X12. Starting a monitor that is already started changes nothing, not
    even the audit trail; a monitor that is not started, or was stopped,
    runs no cycle of the loop. *)
Theorem start_monitoring_idempotent (self : Monitor) (envs : list CycleEnv) :
  _monitoring (start_monitoring self).2 = true
  ∧ start_monitoring (start_monitoring self).2 = (Return tt, (start_monitoring self).2)
  ∧ monitor_loop envs (stop_monitoring self).2 = (Return tt, (stop_monitoring self).2)
  ∧ (_monitoring self = false → monitor_loop envs self = (Return tt, self)).
Proof.
  repeat split.
  - unfold start_monitoring, mbind, M_bind, read. cbn [fst snd].
    by destruct (_monitoring self) eqn:Hm.
  - unfold start_monitoring, mbind, M_bind, read. cbn [fst snd].
    destruct (_monitoring self) eqn:Hm; cbn; by rewrite ?Hm.
  - by destruct envs.
  - intros Hm. destruct envs; [done|].
    cbn [monitor_loop]. unfold mbind, M_bind, read. by rewrite Hm.
Qed.

Lemma start_monitoring_idempotent_witness :
  monitor_loop [network_fault] (init 30 DefaultAlert)
  = (Return tt, init 30 DefaultAlert).
Proof.
  refine (proj2 (proj2 (proj2
    (start_monitoring_idempotent (init 30 DefaultAlert) [network_fault]))) _).
  reflexivity.
Defined.

Lemma force_health_check_eq (p : Probes) (stamp : datetime) (self : Monitor) :
  force_health_check p stamp self
  = (Return ("completed", summarize <$> returned (gather p), stamp),
     with_audit_log (fun log => log ++ (HEALTH_CHECK <$> returned (gather p))) self).
Proof.
  unfold force_health_check, try_except, mbind, M_bind.
  by rewrite perform_health_checks_eq.
Qed.

(** X6. A forced health check answers with one summary per probe that
    returned and only writes the audit trail: statuses, counters and both
    logs stay as they were, so whatever the probes report, the pipeline
    status is the one reported before. *)
Theorem force_health_check_only_audits (p : Probes) (stamp now : datetime)
    (self : Monitor) :
  force_health_check p stamp self
  = (Return ("completed", summarize <$> returned (gather p), stamp),
     with_audit_log (fun log => log ++ (HEALTH_CHECK <$> returned (gather p))) self)
  ∧ get_pipeline_status now (force_health_check p stamp self).2
    = get_pipeline_status now self.
Proof.
  split; [apply force_health_check_eq|]. rewrite force_health_check_eq. reflexivity.
Qed.

(** ** Invariants of serial runs *)

#[export] Instance keeps_preorder (I : Monitor -> Prop) : PreOrder (keeps I).
Proof. split; unfold keeps; [intros s; auto | intros s1 s2 s3; auto]. Qed.

Section Closed.
Context (R : relation Monitor) `{!PreOrder R} (P : HealthStatus -> Prop).
Hypothesis closed_audit :
  ∀ s l, omap logged_attempt l = [] →
         R s (with_audit_log (fun log => log ++ l) s).
Hypothesis closed_failed : ∀ s, R s (with_failed_checks (fun n => n + 1) s).
Hypothesis closed_total : ∀ s f, R s (with_total_checks f s).
Hypothesis closed_recent : ∀ s f, R s (with_recent_checks f s).
Hypothesis closed_status :
  ∀ s c status, P status → status ≠ HEALTHY →
                R s (with_component_status (fun d => <[c := status]> d) s).
Hypothesis closed_attempt : ∀ env c s, R s (attempt_recovery env c s).2.

Lemma process_check_closed (env : CycleEnv) (i : nat) (check : HealthCheck.t) :
  P (HealthCheck.status check) → preserves R (process_check env i check).
Proof.
  intros HP. unfold process_check.
  destruct (decide (HealthCheck.status check ≠ HEALTHY)) as [Hbad|_];
    [|apply preserves_ret; apply _].
  apply preserves_bind; [apply _ | by apply preserves_modify | intros _].
  apply preserves_bind; [apply _ | | intros _].
  { apply preserves_modify. intros s. by apply closed_audit. }
  apply preserves_bind; [apply _ | | intros _].
  { intros s. unfold call_alert_callback. destruct (alert_callback s); [|reflexivity].
    by apply closed_audit. }
  apply preserves_bind; [apply _ | | intros _].
  { apply preserves_modify. intros s. by apply closed_status. }
  apply preserves_bind; [apply _ | apply preserves_read; apply _ | intros recoverable].
  destruct recoverable; [|apply preserves_ret; apply _].
  apply preserves_bind; [apply _ | |intros ?; apply preserves_ret; apply _].
  intros s. apply closed_attempt.
Qed.

Lemma for_each_closed (env : CycleEnv) (checks : list HealthCheck.t) (i : nat) :
  Forall (fun check => P (HealthCheck.status check)) checks →
  preserves R (for_each i checks (process_check env)).
Proof.
  intros Hall. revert i. induction Hall as [|check checks HP _ IH]; intros i; cbn [for_each].
  - apply preserves_ret; apply _.
  - apply preserves_bind; [apply _ | by apply process_check_closed | intros _; apply IH].
Qed.

Lemma omap_logged_health_checks (checks : list HealthCheck.t) :
  omap logged_attempt (HEALTH_CHECK <$> checks) = [].
Proof. by induction checks. Qed.

Lemma monitor_cycle_closed (env : CycleEnv) :
  Forall (fun check => P (HealthCheck.status check)) (returned (gather (probes env))) →
  preserves R (monitor_cycle env).
Proof.
  intros Hall self. rewrite monitor_cycle_unfold.
  pose proof (for_each_closed env _ 0 Hall (before_processing env self)) as Hfor.
  assert (R self (before_processing env self)) as Hpre.
  { unfold before_processing.
    etransitivity; [apply closed_audit, omap_logged_health_checks|].
    etransitivity; [apply closed_total|].
    etransitivity; [apply closed_recent|]. apply closed_recent. }
  destruct (for_each _ _ _ _) as [[a|e] self']; cbn [snd] in *.
  - by etransitivity.
  - etransitivity; [exact Hpre|]. etransitivity; [exact Hfor|]. by apply closed_audit.
Qed.

Lemma trigger_recovery_closed (env : RecoveryEnv) (stamp : datetime) (name : string) :
  preserves R (trigger_recovery env stamp name).
Proof.
  unfold trigger_recovery.
  apply preserves_try_except; [apply _ | | intros e; apply preserves_raise; apply _].
  apply preserves_bind; [apply _ | |intros comp].
  { destruct (component_of_value name); [apply preserves_ret | apply preserves_raise];
      apply _. }
  apply preserves_bind; [apply _ | |intros status].
  { intros s. unfold get_status. by destruct (component_status s !! comp). }
  destruct (decide (status = HEALTHY)); [apply preserves_ret; apply _|].
  apply preserves_bind; [apply _ | |intros ?; apply preserves_ret; apply _].
  intros s. apply closed_attempt.
Qed.

Lemma force_health_check_closed (p : Probes) (stamp : datetime) :
  preserves R (force_health_check p stamp).
Proof.
  intros self. unfold force_health_check, try_except, mbind, M_bind.
  rewrite perform_health_checks_eq. cbn [snd mret M_ret].
  apply closed_audit, omap_logged_health_checks.
Qed.

Lemma run_ops_closed (ops : list Op) (self : Monitor) :
  Forall (fun op => Forall (fun check => P (HealthCheck.status check)) (op_results op)) ops →
  R self (run_ops ops self).
Proof.
  intros Hall. revert self. induction Hall as [|op ops Hop _ IH]; intros self.
  - reflexivity.
  - cbn [run_ops foldl]. etransitivity; [|apply IH].
    destruct op as [env|env stamp name|p stamp]; cbn [apply_op].
    + by apply monitor_cycle_closed.
    + apply trigger_recovery_closed.
    + apply force_health_check_closed.
Qed.
End Closed.

(** What an attempt leaves behind, whatever its outcome. *)
Lemma attempt_recovery_settled (env : RecoveryEnv) (c : PipelineComponent)
    (self : Monitor) :
  ∃ attempt final ok ko,
    settled self (attempt_recovery env c self).2 c final ok ko attempt
    ∧ healthy_or_down final
    ∧ (RecoveryAttempt.success attempt = true ∧ ok = 1 ∧ ko = 0
       ∨ RecoveryAttempt.success attempt = false ∧ ok = 0 ∧ ko = 1).
Proof.
  unfold attempt_recovery.
  destruct (recover_with_outcome env (default MANUAL_INTERVENTION (recovery_map !! c))
              c self)
    as (attempt & self' & -> & _ & _ & [(_ & Hok & _ & Hset)|(e & _ & Hko & _ & Hset)]).
  - exists attempt, HEALTHY, 1, 0. split; [done|]. split; [by left | by left].
  - exists attempt, DOWN, 0, 1. split; [done|]. split; [by right | by right].
Qed.

Lemma all_any_status (ops : list Op) :
  Forall (fun op => Forall (fun check => (fun _ : HealthStatus => True)
                                            (HealthCheck.status check)) (op_results op)) ops.
Proof. apply Forall_forall. intros op _. by apply Forall_forall. Qed.

Lemma init_statuses (interval : Z) (callback : AlertCallback) (c : PipelineComponent) :
  component_status (init interval callback) !! c = Some HEALTHY.
Proof. by destruct c. Qed.

(** X2. A fresh monitor gives every component the status healthy, and no
    run of cycles, manual recovery requests and forced checks ever leaves a
    component without a status: the status snapshot always lists the five
    components in definition order. *)
Theorem every_component_tracked (ops : list Op) (now : datetime) (self : Monitor) :
  tracked self →
  tracked (run_ops ops self)
  ∧ (components (get_pipeline_status now (run_ops ops self))).*1
    = component_value <$> all_components
  ∧ ∀ interval callback c,
      component_status (init interval callback) !! c = Some HEALTHY.
Proof.
  intros Hinit.
  assert (tracked (run_ops ops self)) as Hrun.
  { refine (run_ops_closed (keeps tracked) (fun _ => True) _ _ _ _ _ _ ops self
              (all_any_status ops) Hinit); unfold keeps, tracked.
    - intros s l _ H. exact H.
    - intros s H. exact H.
    - intros s f H. exact H.
    - intros s f H. exact H.
    - intros s c status _ _ H c'. fields. apply lookup_insert_is_Some'. right. apply H.
    - intros env c s H c'.
      destruct (attempt_recovery_settled env c s)
        as (attempt & final & ok & ko & (Hst & _) & _).
      rewrite Hst. apply lookup_insert_is_Some'. right. apply H. }
  split; [exact Hrun|]. split; [|apply init_statuses].
  cbn [get_pipeline_status components]. unfold items, all_components. cbn [omap list_omap].
  destruct (Hrun NETWORK) as [s1 ->], (Hrun VALIDATION_SERVICE) as [s2 ->],
    (Hrun DATABASE) as [s3 ->], (Hrun STORAGE) as [s4 ->], (Hrun QUEUE) as [s5 ->].
  reflexivity.
Qed.

Lemma every_component_tracked_witness :
  tracked (run_ops [Cycle network_fault; ManualRecovery unlucky 7 "queue"] started).
Proof.
  refine (proj1 (every_component_tracked _ 0 started _)).
  intros c. destruct c; eexists; reflexivity.
Defined.

(** X4. Over any run of cycles, manual recovery requests and forced checks,
    [successful_recoveries] stays the number of successful records in the
    recovery log and [failed_recoveries] the number of failed ones. *)
Theorem recovery_counters_count_log (ops : list Op) (self : Monitor) :
  counted_attempts self → counted_attempts (run_ops ops self).
Proof.
  refine (run_ops_closed (keeps counted_attempts) (fun _ => True) _ _ _ _ _ _ ops self
            (all_any_status ops)); unfold keeps, counted_attempts.
  - intros s l _ H. exact H.
  - intros s H. exact H.
  - intros s f H. exact H.
  - intros s f H. exact H.
  - intros s c status _ _ H. exact H.
  - intros env c s [Hok Hko].
    destruct (attempt_recovery_settled env c s)
      as (attempt & final & ok & ko & (_ & Hs & Hf & Hlog & _) & _ & Hcase).
    rewrite Hs, Hf, Hlog, !filter_app, !length_app, !filter_cons, !filter_nil, Hok, Hko.
    destruct Hcase as [(Hsucc & -> & ->)|(Hsucc & -> & ->)]; rewrite Hsucc;
      repeat case_decide; try done; cbn [length]; lia.
Qed.

Lemma recovery_counters_count_log_witness :
  counted_attempts
    (run_ops [Cycle network_fault; ManualRecovery unlucky 7 "queue";
              Cycle network_fault_unrecovered] started).
Proof.
  apply recovery_counters_count_log. split; reflexivity.
Defined.

(** X5. Over any such run the audit trail reports exactly the attempts of
    the recovery log, once each and in the same order, a success at level
    INFO and a failure at level ERROR. *)
Theorem audit_trail_reports_attempts (ops : list Op) (self : Monitor) :
  audited self → audited (run_ops ops self).
Proof.
  refine (run_ops_closed (keeps audited) (fun _ => True) _ _ _ _ _ _ ops self
            (all_any_status ops)); unfold keeps, audited.
  - intros s l Hl [H Hlv]. fields. rewrite omap_app, Hl, app_nil_r. split; [done|].
    apply Forall_app. split; [done|]. apply Forall_forall. intros r Hr.
    destruct r; try done.
    assert (attempt ∈ omap logged_attempt l)
      as Hin by (apply list_elem_of_omap; eauto).
    rewrite Hl in Hin. by apply elem_of_nil in Hin.
  - intros s H. exact H.
  - intros s f H. exact H.
  - intros s f H. exact H.
  - intros s c status _ _ H. exact H.
  - intros env c s [H Hlv].
    destruct (attempt_recovery_settled env c s)
      as (attempt & final & ok & ko & (_ & _ & _ & Hlog & Haudit & _) & _).
    rewrite Haudit, Hlog, omap_app, H. split; [done|].
    apply Forall_app. split; [done|]. by apply Forall_singleton.
Qed.

Lemma audit_trail_reports_attempts_witness :
  audited
    (run_ops [Cycle network_fault; ManualRecovery unlucky 7 "queue";
              Cycle network_fault_unrecovered] started).
Proof.
  apply audit_trail_reports_attempts. split; [reflexivity|].
  repeat constructor.
Defined.

Lemma source_results_healthy_or_down (e1 e2 e3 e4 e5 : ProbeEnv) :
  Forall (fun check => healthy_or_down (HealthCheck.status check))
         (returned (gather (source_probes e1 e2 e3 e4 e5))).
Proof.
  unfold source_probes, gather, check_network, check_validation_service,
    check_database, check_storage, check_queue. cbn [run_check_network
    run_check_validation_service run_check_database run_check_storage run_check_queue].
  destruct (source_probe_returns NETWORK 0.05%float "Network timeout" None e1)
    as (c1 & -> & _ & H1).
  destruct (source_probe_returns VALIDATION_SERVICE 0.03%float
              "Validation service unresponsive" (Some [("active_validations", 5)]) e2)
    as (c2 & -> & _ & H2).
  destruct (source_probe_returns DATABASE 0.02%float "Database connection lost"
              (Some [("active_connections", 10); ("pool_size", 20)]) e3)
    as (c3 & -> & _ & H3).
  destruct (source_probe_returns STORAGE 0.01%float "Storage service unavailable"
              (Some [("disk_usage_percent", 65)]) e4)
    as (c4 & -> & _ & H4).
  destruct (source_probe_returns QUEUE 0.04%float "Queue broker connection failed"
              (Some [("pending_messages", 42)]) e5)
    as (c5 & -> & _ & H5).
  cbn. unfold healthy_or_down.
  repeat (apply Forall_cons; split; [assumption|]). constructor.
Qed.

(** X16. When the probes report only healthy or down, as the probes of the
    source do, every component is healthy or down after each operation of a
    serial run: recovering is seen only while an attempt is in progress,
    and degraded never. *)
Theorem statuses_at_rest (ops : list Op) (self : Monitor) :
  Forall (fun op =>
            Forall (fun check => healthy_or_down (HealthCheck.status check))
                   (op_results op)) ops →
  at_rest self →
  at_rest (run_ops ops self)
  ∧ ∀ now, overall_status (get_pipeline_status now (run_ops ops self)) = HEALTHY
           ∨ overall_status (get_pipeline_status now (run_ops ops self)) = DOWN.
Proof.
  intros Hops Hinit.
  assert (at_rest (run_ops ops self)) as Hrun.
  { refine (run_ops_closed (keeps at_rest) healthy_or_down _ _ _ _ _ _ ops self
              Hops Hinit); unfold keeps, at_rest.
    - intros s l _ H. exact H.
    - intros s H. exact H.
    - intros s f H. exact H.
    - intros s f H. exact H.
    - intros s c status HP _ H c' status'. fields.
      destruct (decide (c = c')) as [<-|Hne].
      + rewrite lookup_insert_eq. by intros [= <-].
      + rewrite lookup_insert_ne by done. apply H.
    - intros env c s H c' status'.
      destruct (attempt_recovery_settled env c s)
        as (attempt & final & ok & ko & (Hst & _) & Hfinal & _).
      rewrite Hst. destruct (decide (c = c')) as [<-|Hne].
      + rewrite lookup_insert_eq. by intros [= <-].
      + rewrite lookup_insert_ne by done. apply H. }
  split; [exact Hrun|]. intros now.
  cbn [get_pipeline_status overall_status].
  destruct (any_is DOWN _) eqn:Hdown; [by right|].
  assert (∀ status, status ≠ HEALTHY → status ≠ DOWN →
            any_is status (values (component_status (run_ops ops self))) = false) as Hno.
  { intros status Hh Hd. apply not_true_iff_false. intros Hin%any_is_true.
    unfold values in Hin. apply list_elem_of_fmap in Hin as ([c st] & -> & Hin).
    unfold items in Hin. apply list_elem_of_omap in Hin as (c' & _ & Hc').
    destruct (component_status (run_ops ops self) !! c') as [st'|] eqn:Hlook; [|done].
    injection Hc' as <- <-. destruct (Hrun _ _ Hlook); done. }
  rewrite !Hno by done. by left.
Qed.

Lemma statuses_at_rest_witness :
  at_rest
    (run_ops [Cycle network_fault_unrecovered; ManualRecovery lucky 7 "network"] started).
Proof.
  refine (proj1 (statuses_at_rest _ started _ _)).
  - apply Forall_cons. split; [apply source_results_healthy_or_down|].
    apply Forall_cons. split; constructor.
  - intros c status. destruct c; intros [= <-]; by left.
Defined.

(** ** Accounting of a cycle *)

#[export] Instance same_check_counters_preorder : PreOrder same_check_counters.
Proof.
  split; [done|]. intros s1 s2 s3 [H1 H1'] [H2 H2']. unfold same_check_counters.
  split; congruence.
Qed.

#[export] Instance check_counters_grow_preorder : PreOrder check_counters_grow.
Proof.
  split; [intros s; unfold check_counters_grow; lia|].
  intros s1 s2 s3 (H1 & H1' & H1'') (H2 & H2' & H2''). unfold check_counters_grow. lia.
Qed.

Lemma attempt_recovery_check_counters (env : RecoveryEnv) (c : PipelineComponent) :
  preserves same_check_counters (attempt_recovery env c).
Proof.
  intros s.
  destruct (attempt_recovery_settled env c s)
    as (attempt & final & ok & ko & (_ & _ & _ & _ & _ & _ & Ht & Hf & _) & _).
  by split.
Qed.

(** The first thing done for a failing result is to count it; nothing after
    that touches the check counters. *)
Lemma process_check_counters (env : CycleEnv) (i : nat) (check : HealthCheck.t)
    (self : Monitor) :
  total_checks (process_check env i check self).2 = total_checks self
  ∧ failed_checks (process_check env i check self).2
    = failed_checks self + Z.of_nat (length (failing [check])).
Proof.
  unfold failing. rewrite filter_cons, filter_nil. unfold process_check.
  destruct (decide (HealthCheck.status check ≠ HEALTHY)) as [Hbad|_];
    cbn [length]; [|cbn; lia].
  match goal with
  | |- context [(mbind ?f (modify ?g)) self] =>
      assert (preserves same_check_counters (f tt)) as Htail;
      [|change ((mbind f (modify g)) self) with (f tt (g self));
        destruct (Htail (g self)) as [-> ->]; cbn; lia]
  end.
  apply preserves_bind; [apply _ | by apply preserves_modify | intros _].
  apply preserves_bind; [apply _ | | intros _].
  { intros s. unfold call_alert_callback. by destruct (alert_callback s). }
  apply preserves_bind; [apply _ | by apply preserves_modify | intros _].
  apply preserves_bind; [apply _ | apply preserves_read; apply _ | intros auto].
  destruct auto; [|apply preserves_ret; apply _].
  apply preserves_bind; [apply _ | |intros ?; apply preserves_ret; apply _].
  apply attempt_recovery_check_counters.
Qed.

Lemma for_each_counters (env : CycleEnv) (checks : list HealthCheck.t) (i : nat)
    (self : Monitor) :
  total_checks (for_each i checks (process_check env) self).2 = total_checks self
  ∧ failed_checks self ≤ failed_checks (for_each i checks (process_check env) self).2
    ≤ failed_checks self + Z.of_nat (length (failing checks)).
Proof.
  revert i self. induction checks as [|check checks IH]; intros i self.
  - cbn. lia.
  - cbn [for_each]. unfold mbind, M_bind.
    pose proof (process_check_counters env i check self) as [Ht Hf].
    unfold failing in *. rewrite filter_cons. rewrite filter_cons, filter_nil in Hf.
    destruct (process_check env i check self) as [[[]|e] s]; cbn [snd] in *.
    + destruct (IH (S i) s) as [Ht' Hf']. rewrite Ht', Ht.
      destruct (decide (HealthCheck.status check ≠ HEALTHY)); cbn [length] in *; lia.
    + destruct (decide (HealthCheck.status check ≠ HEALTHY)); cbn [length] in *; lia.
Qed.

Lemma length_failing (checks : list HealthCheck.t) :
  (length (failing checks) ≤ length checks)%nat.
Proof. apply length_filter. Qed.

Lemma monitor_cycle_counters (env : CycleEnv) (self : Monitor) :
  total_checks (monitor_cycle env self).2
  = total_checks self + Z.of_nat (length (returned (gather (probes env))))
  ∧ failed_checks self ≤ failed_checks (monitor_cycle env self).2
    ≤ failed_checks self + Z.of_nat (length (failing (returned (gather (probes env))))).
Proof.
  rewrite monitor_cycle_unfold.
  pose proof (for_each_counters env (returned (gather (probes env))) 0
                (before_processing env self)) as [Ht Hf].
  unfold before_processing in *.
  destruct (for_each _ _ _ _) as [[a|e] s]; fields; lia.
Qed.

(** X3. Over any run of cycles, manual recovery requests and forced checks
    the two check counters only grow and the failed checks never outnumber
    the checks: a cycle counts every result it collected and at most the
    failing ones as failed. *)
Theorem check_counters_ordered (ops : list Op) (self : Monitor) :
  0 ≤ failed_checks self ≤ total_checks self →
  0 ≤ failed_checks (run_ops ops self) ≤ total_checks (run_ops ops self)
  ∧ check_counters_grow self (run_ops ops self).
Proof.
  intros Hinit.
  assert (check_counters_grow self (run_ops ops self)) as Hgrow.
  { revert self Hinit. induction ops as [|op ops IH]; intros self Hinit; [reflexivity|].
    cbn [run_ops foldl].
    assert (check_counters_grow self (apply_op self op)) as Hop.
    { destruct op as [env|env stamp name|p stamp]; cbn [apply_op].
      - destruct (monitor_cycle_counters env self) as [Ht Hf].
        pose proof (length_failing (returned (gather (probes env)))).
        unfold check_counters_grow. lia.
      - destruct (trigger_recovery_closed same_check_counters
                    attempt_recovery_check_counters env stamp name self) as [Ht Hf].
        unfold check_counters_grow. lia.
      - rewrite force_health_check_eq.
        unfold check_counters_grow. fields. lia. }
    etransitivity; [exact Hop|]. apply IH.
    destruct Hop as (? & ? & ?). lia. }
  split; [|exact Hgrow]. destruct Hgrow as (? & ? & ?). lia.
Qed.

Lemma check_counters_ordered_witness :
  0 ≤ failed_checks (run_ops [Cycle network_fault; Cycle all_quiet] started)
    ≤ total_checks (run_ops [Cycle network_fault; Cycle all_quiet] started).
Proof.
  refine (proj1 (check_counters_ordered _ started _)). change (0 <= 0 <= 0). lia.
Defined.

Lemma process_check_default (env : CycleEnv) (i : nat) (check : HealthCheck.t)
    (self : Monitor) :
  alert_callback self = DefaultAlert →
  ∃ self',
    process_check env i check self = (Return tt, self')
    ∧ alert_callback self' = DefaultAlert
    ∧ length (recovery_attempts self')
      = (length (recovery_attempts self) + length (recoverable [check]))%nat.
Proof.
  intros Hcb. unfold recoverable, failing. rewrite filter_cons, filter_nil.
  destruct (decide (HealthCheck.status check ≠ HEALTHY)) as [Hbad|Hok].
  2:{ exists self. rewrite filter_nil.
      rewrite process_check_healthy by (by apply dec_stable).
      cbn. split; [done|]. split; [done | lia]. }
  rewrite filter_cons, filter_nil.
  destruct (decide (HealthCheck.component check ≠ VALIDATION_SERVICE)) as [Hauto|Hvs].
  - destruct (process_check_attempt env i check self Hcb Hbad Hauto)
      as (self' & Hrun & Hcb' & Hlen).
    exists self'. split; [done|]. split; [done|]. cbn [length]. lia.
  - unfold process_check. destruct (decide (HealthCheck.status check ≠ HEALTHY)); [|done].
    unfold mbind, M_bind, modify, log_failure_detected, call_alert_callback, set_status,
      read, _is_auto_recoverable, _default_alert, log_alert_triggered.
    unfold modify. fields. rewrite Hcb. fields.
    rewrite bool_decide_eq_false_2 by done.
    eexists. split; [reflexivity|]. fields. split; [done|]. cbn [length]. lia.
Qed.

Lemma for_each_default (env : CycleEnv) (checks : list HealthCheck.t) (i : nat)
    (self : Monitor) :
  alert_callback self = DefaultAlert →
  ∃ self',
    for_each i checks (process_check env) self = (Return tt, self')
    ∧ alert_callback self' = DefaultAlert
    ∧ length (recovery_attempts self')
      = (length (recovery_attempts self) + length (recoverable checks))%nat
    ∧ failed_checks self' = failed_checks self + Z.of_nat (length (failing checks)).
Proof.
  revert i self. induction checks as [|check checks IH]; intros i self Hcb.
  - exists self. unfold recoverable, failing. rewrite !filter_nil. cbn [for_each length].
    split; [done|]. split; [done|]. split; lia.
  - destruct (process_check_default env i check self Hcb) as (s1 & Hrun & Hcb1 & Hlen1).
    pose proof (process_check_counters env i check self) as [_ Hf1].
    rewrite Hrun in Hf1. cbn [snd] in Hf1.
    destruct (IH (S i) s1 Hcb1) as (s2 & Hrun2 & Hcb2 & Hlen2 & Hf2).
    exists s2. cbn [for_each]. unfold mbind, M_bind. rewrite Hrun.
    split; [exact Hrun2|]. split; [done|].
    unfold recoverable, failing in *.
    rewrite (filter_cons _ check checks).
    rewrite filter_cons, filter_nil in Hf1.
    rewrite (filter_cons _ check []), filter_nil in Hlen1.
    destruct (decide (HealthCheck.status check ≠ HEALTHY)).
    + rewrite filter_cons. rewrite filter_cons, filter_nil in Hlen1.
      destruct (decide (HealthCheck.component check ≠ VALIDATION_SERVICE));
        cbn [length] in *; split; lia.
    + rewrite filter_nil in Hlen1. cbn [length] in *. split; lia.
Qed.

(** X14. With the default alert handler a cycle of the loop never faults
    and accounts for every result: [total_checks] grows by the number of
    results collected, [failed_checks] by the number of results that are
    not healthy, and one recovery attempt is made for each of those whose
    component is not the validation service. *)
Theorem monitor_cycle_accounting (env : CycleEnv) (self : Monitor) :
  alert_callback self = DefaultAlert →
  let checks := returned (gather (probes env)) in
  (monitor_cycle env self).1 = Return tt
  ∧ total_checks (monitor_cycle env self).2
    = total_checks self + Z.of_nat (length checks)
  ∧ failed_checks (monitor_cycle env self).2
    = failed_checks self + Z.of_nat (length (failing checks))
  ∧ length (recovery_attempts (monitor_cycle env self).2)
    = (length (recovery_attempts self) + length (recoverable checks))%nat
  ∧ alert_callback (monitor_cycle env self).2 = DefaultAlert.
Proof.
  intros Hcb checks. subst checks.
  pose proof (monitor_cycle_counters env self) as [Ht _].
  rewrite monitor_cycle_unfold in *.
  destruct (for_each_default env (returned (gather (probes env))) 0
              (before_processing env self) Hcb) as (s & Hrun & Hcb' & Hlen & Hf).
  rewrite Hrun in *. cbn [fst snd] in *.
  split; [done|]. split; [done|]. split; [exact Hf|]. split; [exact Hlen | done].
Qed.

Lemma monitor_cycle_accounting_witness :
  length (recovery_attempts (monitor_cycle validation_fault started).2) = 0%nat
  ∧ failed_checks (monitor_cycle validation_fault started).2 = 1.
Proof.
  destruct (monitor_cycle_accounting validation_fault started eq_refl)
    as (_ & _ & Hf & Hlen & _).
  split; [exact Hlen | exact Hf].
Defined.

Lemma process_check_raising (env : CycleEnv) (i : nat) (check : HealthCheck.t)
    (self : Monitor) (f : PipelineComponent -> HealthStatus -> outcome unit) (e : exn) :
  alert_callback self = CustomAlert f →
  f (HealthCheck.component check) (HealthCheck.status check) = Raise e →
  HealthCheck.status check ≠ HEALTHY →
  process_check env i check self
  = (Raise e,
     with_audit_log
       (fun log => log ++ [FAILURE_DETECTED (HealthCheck.component check)
                             (or_else (HealthCheck.error_message check) "Unknown error")])
       (with_failed_checks (fun n => n + 1) self)).
Proof.
  intros Hcb Hf Hbad. unfold process_check.
  destruct (decide (HealthCheck.status check ≠ HEALTHY)); [|done].
  unfold mbind, M_bind, modify, log_failure_detected, call_alert_callback.
  unfold modify. fields. by rewrite Hcb, Hf.
Qed.

(** X15. With an alert callback that raises, a cycle still ends normally,
    but at its first failing result: that result is counted as failed and
    logged, and then the cycle is over. No status is written and no
    recovery is attempted, for that result or for any later one, and the
    fault is logged as a monitor loop error. *)
Theorem raising_alert_aborts_cycle (env : CycleEnv) (self : Monitor)
    (f : PipelineComponent -> HealthStatus -> outcome unit) (e : exn) :
  alert_callback self = CustomAlert f →
  (∀ c status, f c status = Raise e) →
  (monitor_cycle env self).1 = Return tt
  ∧ component_status (monitor_cycle env self).2 = component_status self
  ∧ recovery_attempts (monitor_cycle env self).2 = recovery_attempts self
  ∧ failed_checks (monitor_cycle env self).2
    = failed_checks self
      + match failing (returned (gather (probes env))) with [] => 0 | _ => 1 end
  ∧ (failing (returned (gather (probes env))) ≠ [] →
     last (audit_log (monitor_cycle env self).2)
     = Some (LOG ERROR ("Monitor loop error: " +:+ str e))).
Proof.
  intros Hcb Hf. rewrite monitor_cycle_unfold.
  assert (∀ checks i s,
    alert_callback s = CustomAlert f →
    match failing checks with
    | [] => for_each i checks (process_check env) s = (Return tt, s)
    | _ => ∃ s', for_each i checks (process_check env) s = (Raise e, s')
                 ∧ component_status s' = component_status s
                 ∧ recovery_attempts s' = recovery_attempts s
                 ∧ failed_checks s' = failed_checks s + 1
    end) as Hfor.
  { induction checks as [|check checks IH]; intros i s Hs; [done|].
    unfold failing in *. rewrite filter_cons. cbn [for_each]. unfold mbind, M_bind.
    destruct (decide (HealthCheck.status check ≠ HEALTHY)) as [Hbad|Hok].
    - rewrite (process_check_raising env i check s f e) by done.
      eexists. split; [reflexivity|]. by fields.
    - rewrite process_check_healthy by (by apply dec_stable).
      apply IH, Hs. }
  specialize (Hfor (returned (gather (probes env))) 0%nat (before_processing env self) Hcb).
  destruct (failing (returned (gather (probes env)))) as [|bad rest].
  - rewrite Hfor. cbn [fst snd]. unfold before_processing. fields.
    repeat split; try done; lia.
  - destruct Hfor as (s' & -> & Hst & Hlog & Hfail). cbn [fst snd]. fields.
    unfold before_processing in *. fields.
    repeat split; try done. intros _. by rewrite last_snoc.
Qed.

Lemma raising_alert_aborts_cycle_witness :
  component_status
    (monitor_cycle network_fault
       (init 30 (CustomAlert (fun _ _ => Raise (Exception "pager down"))))).2
  = component_status (init 30 (CustomAlert (fun _ _ => Raise (Exception "pager down")))).
Proof.
  refine (proj1 (proj2 (raising_alert_aborts_cycle network_fault
                          (init 30 (CustomAlert (fun _ _ => Raise (Exception "pager down"))))
                          (fun _ _ => Raise (Exception "pager down"))
                          (Exception "pager down") _ _))).
  - reflexivity.
  - intros c status. reflexivity.
Defined.

(** ** Guidance for operators *)

Lemma items_total (d : gmap PipelineComponent HealthStatus)
    (f : PipelineComponent -> HealthStatus) :
  (∀ c, d !! c = Some (f c)) → items d = (fun c => (c, f c)) <$> all_components.
Proof. intros Hd. unfold items, all_components. cbn. by rewrite !Hd. Qed.

Lemma advice_for_down (f : PipelineComponent -> HealthStatus)
    (l : list PipelineComponent) :
  omap (fun '(component, status) =>
          if decide (status = DOWN) then Some (down_advice component) else None)
       ((fun c => (c, f c)) <$> l)
  = down_advice <$> filter (fun c => f c = DOWN) l.
Proof.
  induction l as [|c l IH]; [done|].
  cbn [fmap list_fmap omap list_omap]. rewrite filter_cons.
  destruct (decide (f c = DOWN)); cbn; by rewrite <- IH.
Qed.

(** X7. The suggested actions are one line of advice per component that is
    down, in definition order, and the single line "all systems
    operational" when none is down. Components that are degraded or
    recovering get no line: with such components and none down, the
    "all systems operational" line is given while the overall status is
    not healthy. *)
Theorem suggested_actions_only_for_down (now : datetime) (self : Monitor)
    (f : PipelineComponent -> HealthStatus) :
  (∀ c, component_status self !! c = Some (f c)) →
  suggested_actions (get_pipeline_status now self)
  = match filter (fun c => f c = DOWN) all_components with
    | [] => ["✅ All systems operational. No action needed."]
    | down => down_advice <$> down
    end
  ∧ suggested_actions (get_pipeline_status now self) ≠ []
  ∧ ((∀ c, f c ≠ DOWN) → (∃ c, f c ≠ HEALTHY) →
     suggested_actions (get_pipeline_status now self)
     = ["✅ All systems operational. No action needed."]
     ∧ overall_status (get_pipeline_status now self) ≠ HEALTHY).
Proof.
  intros Hd.
  assert (suggested_actions (get_pipeline_status now self)
          = match filter (fun c => f c = DOWN) all_components with
            | [] => ["✅ All systems operational. No action needed."]
            | down => down_advice <$> down
            end) as Heq.
  { cbn [get_pipeline_status suggested_actions]. unfold _generate_suggested_actions.
    rewrite (items_total _ f Hd), advice_for_down.
    by destruct (filter (fun c => f c = DOWN) all_components). }
  split; [exact Heq|]. split.
  - rewrite Heq. by destruct (filter (fun c => f c = DOWN) all_components).
  - intros Hnone (c & Hc). split.
    + rewrite Heq.
      destruct (filter (fun c => f c = DOWN) all_components) as [|c' down] eqn:Hf; [done|].
      assert (c' ∈ filter (fun c => f c = DOWN) all_components) as Hin
        by (rewrite Hf; apply elem_of_cons; by left).
      apply list_elem_of_filter in Hin as [Hdown _]. by destruct (Hnone c').
    + cbn [get_pipeline_status overall_status]. rewrite (values_total _ f Hd).
      destruct (f c) eqn:Hfc; [done| | by destruct (Hnone c) |].
      * assert (any_is DEGRADED (f <$> all_components) = true) as ->
          by (apply any_is_assignment; eauto).
        by destruct (any_is DOWN _).
      * assert (any_is RECOVERING (f <$> all_components) = true) as ->
          by (apply any_is_assignment; eauto).
        destruct (any_is DOWN (f <$> all_components)); [done|].
        by destruct (any_is DEGRADED (f <$> all_components)).
Qed.

Lemma suggested_actions_only_for_down_witness :
  suggested_actions
    (get_pipeline_status 0
       (with_statuses (fun c => if decide (c = QUEUE) then DEGRADED else HEALTHY)
          (init 30 DefaultAlert)))
  = ["✅ All systems operational. No action needed."].
Proof.
  refine (proj1 (proj2 (proj2 (suggested_actions_only_for_down 0 _
            (fun c => if decide (c = QUEUE) then DEGRADED else HEALTHY) _)) _ _)).
  - intros c. by destruct c.
  - intros c. by destruct c.
  - by exists QUEUE.
Defined.

(** X8. The auto-recoverable flag of the pipeline status is true exactly
    when the validation service is healthy, whatever the other components'
    statuses: in particular it is true when everything is healthy and when
    every other component is down. *)
Theorem auto_recoverable_flag (now : datetime) (self : Monitor)
    (f : PipelineComponent -> HealthStatus) :
  (∀ c, component_status self !! c = Some (f c)) →
  is_auto_recoverable (get_pipeline_status now self) = true
  ↔ f VALIDATION_SERVICE = HEALTHY.
Proof.
  intros Hd. cbn [get_pipeline_status is_auto_recoverable].
  rewrite (items_total _ f Hd). unfold all_components, _is_auto_recoverable.
  cbn [fmap list_fmap]. rewrite !filter_cons, filter_nil.
  destruct (decide (f VALIDATION_SERVICE = HEALTHY)) as [Hvs|Hvs].
  - split; [done|]. intros _.
    repeat case_decide; cbn; done.
  - split; [|done].
    repeat case_decide; cbn; done.
Qed.

Lemma auto_recoverable_flag_witness :
  is_auto_recoverable
    (get_pipeline_status 0
       (with_statuses (fun c => if decide (c = VALIDATION_SERVICE) then HEALTHY else DOWN)
          (init 30 DefaultAlert)))
  = true.
Proof.
  refine (proj2 (auto_recoverable_flag 0 _
            (fun c => if decide (c = VALIDATION_SERVICE) then HEALTHY else DOWN) _) _).
  - intros c. by destruct c.
  - reflexivity.
Defined.

(** ** The editor's message *)

Lemma prefix_append (s t : string) : String.prefix s (s +:+ t) = true.
Proof.
  induction s as [|a s IH].
  - by destruct t.
  - change (String a s +:+ t) with (String a (s +:+ t)).
    change ((if Ascii.ascii_dec a a then String.prefix s (s +:+ t) else false) = true).
    destruct (Ascii.ascii_dec a a); [exact IH | done].
Qed.

Lemma prefix_first_line (head : string) (second : string) (rest : list string) :
  String.prefix head (String.concat nl (head :: second :: rest)) = true.
Proof. cbn [String.concat]. apply prefix_append. Qed.

Lemma overall_status_total (now : datetime) (self : Monitor)
    (f : PipelineComponent -> HealthStatus) :
  (∀ c, component_status self !! c = Some (f c)) →
  overall_status (get_pipeline_status now self)
  = if any_is DOWN (f <$> all_components) then DOWN
    else if any_is DEGRADED (f <$> all_components) then DEGRADED
    else if any_is RECOVERING (f <$> all_components) then RECOVERING
    else HEALTHY.
Proof.
  intros Hd. cbn [get_pipeline_status overall_status]. by rewrite (values_total _ f Hd).
Qed.

Lemma overall_healthy_iff (now : datetime) (self : Monitor)
    (f : PipelineComponent -> HealthStatus) :
  (∀ c, component_status self !! c = Some (f c)) →
  overall_status (get_pipeline_status now self) = HEALTHY ↔ ∀ c, f c = HEALTHY.
Proof.
  intros Hd. rewrite (overall_status_total now self f Hd). split.
  - intros Hall c.
    destruct (any_is DOWN _) eqn:H1; [done|].
    destruct (any_is DEGRADED _) eqn:H2; [done|].
    destruct (any_is RECOVERING _) eqn:H3; [done|].
    pose proof (proj1 (any_is_assignment_false _ _) H1 c).
    pose proof (proj1 (any_is_assignment_false _ _) H2 c).
    pose proof (proj1 (any_is_assignment_false _ _) H3 c).
    by destruct (f c).
  - intros Hall.
    assert (∀ s, s ≠ HEALTHY → any_is s (f <$> all_components) = false) as Hno.
    { intros s Hs. apply any_is_assignment_false. intros c. by rewrite Hall. }
    by rewrite !Hno.
Qed.

(** X9. The editor's message has three forms, chosen by the overall status:
    the operational report when every component is healthy, the recovering
    notice when some component is recovering and none is degraded or down,
    and the DOWN report otherwise, so also when the worst component is only
    degraded. The endpoint's [can_publish] is true exactly when every
    component is healthy. *)
Theorem editor_message_tier (format_2f : float -> string) (strftime : datetime -> string)
    (now1 now2 stamp : datetime) (self : Monitor) (f : PipelineComponent -> HealthStatus) :
  (∀ c, component_status self !! c = Some (f c)) →
  ((∀ c, f c = HEALTHY) →
   String.prefix "✅ **Publishing Pipeline: OPERATIONAL**"
     (get_editor_message format_2f strftime now1 self) = true)
  ∧ ((∀ c, f c ≠ DOWN) → (∀ c, f c ≠ DEGRADED) → (∃ c, f c = RECOVERING) →
     String.prefix "🔄 **Publishing Pipeline: RECOVERING**"
       (get_editor_message format_2f strftime now1 self) = true)
  ∧ ((∃ c, f c = DOWN ∨ f c = DEGRADED) →
     String.prefix "🚨 **Publishing Pipeline: DOWN**"
       (get_editor_message format_2f strftime now1 self) = true)
  ∧ ∃ message status can_publish,
      get_editor_message_endpoint format_2f strftime now1 now2 stamp self
      = (Return (message, status, can_publish, stamp), self)
      ∧ message = get_editor_message format_2f strftime now1 self
      ∧ (can_publish = true ↔ ∀ c, f c = HEALTHY).
Proof.
  intros Hd.
  pose proof (overall_status_total now1 self f Hd) as Hoverall.
  split; [|split; [|split]].
  - intros Hall. unfold get_editor_message.
    rewrite (proj2 (overall_healthy_iff now1 self f Hd) Hall).
    destruct (decide (HEALTHY = HEALTHY)); [|done]. apply prefix_first_line.
  - intros Hnd Hng Hrec. unfold get_editor_message.
    apply any_is_assignment_false in Hnd, Hng. apply any_is_assignment in Hrec.
    rewrite Hnd, Hng, Hrec in Hoverall. rewrite Hoverall.
    destruct (decide (RECOVERING = HEALTHY)); [done|].
    destruct (decide (RECOVERING = RECOVERING)); [|done]. apply prefix_first_line.
  - intros (c & Hc). unfold get_editor_message.
    assert (overall_status (get_pipeline_status now1 self) = DOWN
            ∨ overall_status (get_pipeline_status now1 self) = DEGRADED) as Hworst.
    { rewrite Hoverall. destruct (any_is DOWN _) eqn:Hdown; [by left|]. right.
      destruct Hc as [Hc|Hc].
      - by destruct (proj1 (any_is_assignment_false _ _) Hdown c).
      - assert (any_is DEGRADED (f <$> all_components) = true) as ->; [|done].
        apply any_is_assignment. by exists c. }
    destruct Hworst as [-> | ->].
    + destruct (decide (DOWN = HEALTHY)); [done|].
      destruct (decide (DOWN = RECOVERING)); [done|]. apply prefix_first_line.
    + destruct (decide (DEGRADED = HEALTHY)); [done|].
      destruct (decide (DEGRADED = RECOVERING)); [done|]. apply prefix_first_line.
  - eexists _, _, _. split; [reflexivity|]. split; [reflexivity|].
    rewrite bool_decide_eq_true. apply (overall_healthy_iff now2 self f Hd).
Qed.

Lemma editor_message_tier_witness :
  String.prefix "🚨 **Publishing Pipeline: DOWN**"
    (get_editor_message (fun _ => "100.00") (fun _ => "2026-01-01 00:00:00") 0
       (with_statuses (fun c => if decide (c = QUEUE) then DEGRADED else HEALTHY)
          (init 30 DefaultAlert)))
  = true.
Proof.
  refine (proj1 (proj2 (proj2 (editor_message_tier _ _ 0 0 0 _
            (fun c => if decide (c = QUEUE) then DEGRADED else HEALTHY) _))) _).
  - intros c. by destruct c.
  - exists QUEUE. by right.
Defined.

(** ** Metrics *)


(** ** History *)



Lemma slice_from_submseteq {A} (start : Z) (l : list A) : slice_from start l ⊆ l.
Proof.
  unfold slice_from. destruct (start <? 0); apply subseteq_drop.
Qed.

Lemma insert_event_permutation (ev : HistoryEvent) (l : list HistoryEvent) :
  insert_event ev l ≡ₚ ev :: l.
Proof.
  induction l as [|first rest IH]; [done|]. cbn [insert_event].
  destruct (String.ltb _ _); [|done]. rewrite IH. apply Permutation_swap.
Qed.

Lemma sort_events_permutation (l : list HistoryEvent) : sort_events l ≡ₚ l.
Proof.
  induction l as [|ev l IH]; [done|]. cbn [sort_events foldr].
  fold (sort_events l). by rewrite insert_event_permutation, IH.
Qed.

(** Not later than: the order of the time stamps as strings. *)
Lemma ltb_leb (s t : string) : String.ltb s t = true → String.leb s t = true.
Proof. unfold String.ltb, String.leb. by destruct (String.compare s t). Qed.

Lemma not_ltb_leb (s t : string) : String.ltb s t = false → String.leb t s = true.
Proof.
  unfold String.ltb, String.leb. rewrite (String.compare_antisym s t).
  by destruct (String.compare t s).
Qed.

Lemma insert_event_sorted (ev : HistoryEvent) (l : list HistoryEvent) :
  Sorted newest_first l → Sorted newest_first (insert_event ev l).
Proof.
  induction l as [|first rest IH]; intros Hsorted; cbn [insert_event].
  - by repeat constructor.
  - destruct (String.ltb (event_timestamp ev) (event_timestamp first)) eqn:Hlt.
    + apply Sorted_inv in Hsorted as [Hrest Hhd]. constructor; [by apply IH|].
      destruct rest as [|second rest]; cbn [insert_event].
      * constructor. by apply ltb_leb.
      * destruct (String.ltb (event_timestamp ev) (event_timestamp second)).
        -- constructor. by apply HdRel_inv in Hhd.
        -- constructor. by apply ltb_leb.
    + constructor; [done|]. constructor. by apply not_ltb_leb.
Qed.

Lemma sort_events_sorted (l : list HistoryEvent) : Sorted newest_first (sort_events l).
Proof.
  induction l as [|ev l IH]; [constructor|]. cbn [sort_events foldr].
  by apply insert_event_sorted.
Qed.

Lemma take_sorted {A} (R : relation A) (n : nat) (l : list A) :
  Sorted R l → Sorted R (take n l).
Proof.
  revert n. induction l as [|x l IH]; intros n Hsorted; [by destruct n|].
  destruct n as [|n]; [constructor|]. cbn [take].
  apply Sorted_inv in Hsorted as [Hl Hhd]. constructor; [by apply IH|].
  destruct l as [|y l]; [by destruct n; constructor|].
  destruct n; constructor. by apply HdRel_inv in Hhd.
Qed.

Lemma slice_to_sorted {A} (R : relation A) (stop : Z) (l : list A) :
  Sorted R l → Sorted R (slice_to stop l).
Proof. intros Hsorted. unfold slice_to. destruct (stop <? 0); by apply take_sorted. Qed.

Lemma get_history_eq (isoformat : datetime -> string) (limit : Z) (stamp : datetime)
    (self : Monitor) :
  get_history isoformat limit stamp self
  = (Return (slice_to limit (history_events isoformat limit self),
             length (history_events isoformat limit self), stamp), self).
Proof. reflexivity. Qed.



(** X19. The events of the history are in order of their time stamps as
    strings, newest first, and each one is an entry of the recent-checks
    log or of the recovery log. *)
Theorem get_history_newest_first (isoformat : datetime -> string) (limit : Z)
    (stamp : datetime) (self : Monitor) :
  ∃ events total,
    get_history isoformat limit stamp self = (Return (events, total, stamp), self)
    ∧ Sorted newest_first events
    ∧ ∀ ev, ev ∈ events →
        (∃ check, check ∈ recent_checks self ∧ ev = check_event isoformat check)
        ∨ (∃ attempt, attempt ∈ recovery_attempts self
                      ∧ ev = recovery_event isoformat attempt).
Proof.
  eexists _, _. split; [apply get_history_eq|]. split.
  - apply slice_to_sorted, sort_events_sorted.
  - intros ev Hin.
    assert (ev ∈ history_events isoformat limit self) as Hall.
    { unfold slice_to in Hin. destruct (limit <? 0); by apply subseteq_take in Hin. }
    unfold history_events in Hall. rewrite sort_events_permutation in Hall.
    apply elem_of_app in Hall as [Hc|Ha].
    + left. apply list_elem_of_fmap in Hc as (check & -> & Hc).
      exists check. split; [by apply slice_from_submseteq in Hc | done].
    + right. apply list_elem_of_fmap in Ha as (attempt & -> & Ha).
      exists attempt. split; [by apply slice_from_submseteq in Ha | done].
Qed.

(** ** Requests and attempts under interleaving *)

Lemma fail_attempt_returns (p : Pending) (now : nat -> datetime) (e : exn)
    (self : Monitor) :
  ∃ attempt self',
    fail_attempt p now e self = (Return attempt, self')
    ∧ RecoveryAttempt.success attempt = false
    ∧ RecoveryAttempt.component attempt = pending_component p
    ∧ component_status self' = <[pending_component p := DOWN]> (component_status self)
    ∧ recovery_attempts self' = recovery_attempts self ++ [attempt].
Proof. eexists _, _. split; [reflexivity|]. by fields. Qed.

Lemma complete_attempt_returns (p : Pending) (now : nat -> datetime) (self : Monitor) :
  ∃ attempt self',
    complete_attempt p now self = (Return attempt, self')
    ∧ RecoveryAttempt.success attempt = true
    ∧ RecoveryAttempt.component attempt = pending_component p
    ∧ component_status self' = <[pending_component p := HEALTHY]> (component_status self)
    ∧ recovery_attempts self' = recovery_attempts self ++ [attempt].
Proof. eexists _, _. split; [reflexivity|]. by fields. Qed.

Lemma step_accounts (sys : System) (ev : Event) :
  (length (responses (step sys ev)) + length (in_flight (step sys ev)))%nat
  = (length (responses sys) + length (in_flight sys) + length (requests [ev]))%nat.
Proof.
  unfold requests. rewrite filter_cons, filter_nil.
  destruct ev as [now stamp name|i now result|i now]; cbn [step].
  - cbn [is_request]. destruct (decide (true = true)); [|done]. cbn [length].
    unfold trigger_recovery_begin.
    destruct (component_of_value name) as [comp|];
      [|cbn [respond responses in_flight]; rewrite length_app; cbn [length]; lia].
    unfold get_status. destruct (component_status (monitor sys) !! comp) as [status|];
      [|cbn [respond responses in_flight]; rewrite length_app; cbn [length]; lia].
    destruct (decide (status = HEALTHY));
      [cbn [respond responses in_flight]; rewrite length_app; cbn [length]; lia|].
    destruct (begin_attempt now name comp (monitor sys)) as [[[attempt|p]|err] self'];
      cbn [respond responses in_flight]; rewrite length_app; cbn [length]; lia.
  - cbn [is_request]. destruct (decide (false = true)); [done|]. cbn [length].
    destruct (in_flight sys !! i) as [[p|p]|] eqn:Hi; [|lia|lia].
    unfold resume. rewrite Hi.
    pose proof (lookup_lt_Some _ _ _ Hi) as Hlt.
    destruct result as [[]|e].
    + cbn [responses in_flight]. rewrite length_insert. lia.
    + destruct (fail_attempt_returns p now e (monitor sys)) as (a & s & -> & _).
      cbn [responses in_flight]. rewrite length_app, length_delete by eauto.
      cbn [length]. lia.
  - cbn [is_request]. destruct (decide (false = true)); [done|]. cbn [length].
    destruct (in_flight sys !! i) as [[p|p]|] eqn:Hi; [lia| |lia].
    unfold resume. rewrite Hi.
    pose proof (lookup_lt_Some _ _ _ Hi) as Hlt.
    destruct (complete_attempt_returns p now (monitor sys)) as (a & s & -> & _).
    cbn [responses in_flight]. rewrite length_app, length_delete by eauto.
    cbn [length]. lia.
Qed.

(** X17. However the requests and the resumptions of suspended attempts are
    interleaved, no manual request is lost or answered twice: the responses
    sent and the attempts still in flight together number the requests
    received. *)
Theorem requests_accounted (events : list Event) (sys : System) :
  (length (responses (run events sys)) + length (in_flight (run events sys)))%nat
  = (length (responses sys) + length (in_flight sys) + length (requests events))%nat.
Proof.
  revert sys. induction events as [|ev events IH]; intros sys.
  - cbn. lia.
  - cbn [run foldl]. fold (run events (step sys ev)).
    rewrite IH, step_accounts. unfold requests.
    rewrite (filter_cons _ ev events), (filter_cons _ ev []), filter_nil.
    destruct (decide _); cbn [length]; lia.
Qed.

(** X18. Under interleaving the attempt that finishes last decides the
    status. An attempt whose executor raises sets its component to down,
    and one whose verification ends sets it to healthy, whatever the status
    is at that moment and whatever else is in flight; either way the
    attempt leaves the calls in flight and its record ends the recovery
    log. *)
Theorem finishing_attempt_writes_status (sys : System) (i : nat) (p : Pending)
    (now : nat -> datetime) (e : exn) :
  (in_flight sys !! i = Some (InExecutor p) →
   component_status (monitor (step sys (ExecutorDone i now (Raise e))))
     !! pending_component p = Some DOWN
   ∧ in_flight (step sys (ExecutorDone i now (Raise e))) = delete i (in_flight sys)
   ∧ ∃ attempt,
       recovery_attempts (monitor (step sys (ExecutorDone i now (Raise e))))
       = recovery_attempts (monitor sys) ++ [attempt]
       ∧ RecoveryAttempt.success attempt = false)
  ∧ (in_flight sys !! i = Some (InVerification p) →
     component_status (monitor (step sys (VerificationDone i now)))
       !! pending_component p = Some HEALTHY
     ∧ in_flight (step sys (VerificationDone i now)) = delete i (in_flight sys)
     ∧ ∃ attempt,
         recovery_attempts (monitor (step sys (VerificationDone i now)))
         = recovery_attempts (monitor sys) ++ [attempt]
         ∧ RecoveryAttempt.success attempt = true).
Proof.
  split; intros Hi; cbn [step]; rewrite Hi; unfold resume; rewrite Hi.
  - destruct (fail_attempt_returns p now e (monitor sys))
      as (a & s & -> & Hfail & _ & Hst & Hlog).
    cbn [monitor in_flight]. rewrite Hst. split; [apply lookup_insert_eq|].
    split; [done|]. by exists a.
  - destruct (complete_attempt_returns p now (monitor sys))
      as (a & s & -> & Hok & _ & Hst & Hlog).
    cbn [monitor in_flight]. rewrite Hst. split; [apply lookup_insert_eq|].
    split; [done|]. by exists a.
Qed.

(** The first of two overlapping attempts has succeeded and the network is
    healthy; the second then fails and leaves it down. *)
Lemma finishing_attempt_writes_status_witness :
  component_status (monitor first_succeeded) !! NETWORK = Some HEALTHY
  ∧ component_status
      (monitor (step first_succeeded
                  (ExecutorDone 0 (now lucky) (Raise (Exception "Reconnection failed")))))
      !! NETWORK
    = Some DOWN.
Proof.
  split; [vm_compute; reflexivity|].
  refine (proj1 (proj1 (finishing_attempt_writes_status first_succeeded 0
            {| pending_id := ("network", 60100); pending_component := NETWORK;
               pending_action := RECONNECT; pending_start := 860100;
               pending_request := "network" |}
            (now lucky) (Exception "Reconnection failed")) _)).
  vm_compute. reflexivity.
Defined.

(** ** Bounds of the failure report *)

(** X20. The pipeline status never reports more than ten recent failures,
    and each reported failure is the reduction of an entry of the
    recent-checks log that is not healthy. *)
Theorem recent_failures_bounded (now : datetime) (self : Monitor) :
  (length (recent_failures (get_pipeline_status now self)) ≤ 10)%nat
  ∧ ∀ entry, entry ∈ recent_failures (get_pipeline_status now self) →
      ∃ check, check ∈ recent_checks self
               ∧ HealthCheck.status check ≠ HEALTHY
               ∧ entry = reduced check.
Proof.
  cbn [get_pipeline_status recent_failures].
  rewrite (omap_filter_fmap (fun check => HealthCheck.status check ≠ HEALTHY) reduced).
  split.
  - rewrite length_fmap.
    etransitivity; [apply length_filter | apply length_slice_last].
  - intros entry (check & -> & Hin)%list_elem_of_fmap.
    apply list_elem_of_filter in Hin as [Hbad Hin].
    exists check. split; [|done]. unfold slice_last in Hin.
    by apply subseteq_drop in Hin.
Qed.
